(** * google-ddns-updater: the reconciliation and provider-update protocol

    A shallow embedding of [helper/helper.go] and [main.go].  Go strings are
    byte strings ([string]); the process environment (file system, log,
    standard output, HTTP requests handed to the client) is an explicit
    [World] threaded through a small result-and-state monad; the parts of
    the Go runtime and of the outside world the program consults (the JSON
    decoder, the path of the executable, the HTTP peer) are section
    variables. *)

From Stdlib Require Import ZArith Ascii String.
From stdpp Require Import base option list strings gmap pretty.

(** ** Package [unicode/utf8] *)
Module utf8.

Definition RuneError : N := 65533.      (* U+FFFD *)
Definition RuneSelf : N := 128.
Definition UTFMax : nat := 4.

(** The byte [s[i]]. *)
Definition byteAt (s : string) (i : nat) : N :=
  match String.get i s with
  | Some a => N_of_ascii a
  | None => 0%N
  end.

(** The table [first] with [acceptRanges]: for a leading byte, the size of
    the encoding and the range of its second byte; [None] for an ASCII
    byte and for a byte that starts no encoding. *)
Definition first (s0 : N) : option (nat * N * N) :=
  (if s0 <? 194 then None                                (* < 0xC2 *)
   else if s0 <=? 223 then Some (2%nat, 128, 191)        (* 0xC2-0xDF *)
   else if s0 =? 224 then Some (3%nat, 160, 191)         (* 0xE0 *)
   else if s0 <=? 236 then Some (3%nat, 128, 191)        (* 0xE1-0xEC *)
   else if s0 =? 237 then Some (3%nat, 128, 159)         (* 0xED *)
   else if s0 <=? 239 then Some (3%nat, 128, 191)        (* 0xEE-0xEF *)
   else if s0 =? 240 then Some (4%nat, 144, 191)         (* 0xF0 *)
   else if s0 <=? 243 then Some (4%nat, 128, 191)        (* 0xF1-0xF3 *)
   else if s0 =? 244 then Some (4%nat, 128, 143)         (* 0xF4 *)
   else None)%N.

(** [utf8.DecodeRuneInString(s)]: the first rune of [s] and its width in
    bytes; [(RuneError, 1)] when [s] starts with no valid encoding. *)
Definition DecodeRuneInString (s : string) : N * nat :=
  if (String.length s <? 1)%nat then (RuneError, 0%nat)
  else
    let s0 := byteAt s 0 in
    match first s0 with
    | None => (if (s0 <? RuneSelf)%N then s0 else RuneError, 1%nat)
    | Some (sz, lo, hi) =>
        if (String.length s <? sz)%nat then (RuneError, 1%nat)
        else
          let s1 := byteAt s 1 in
          if ((s1 <? lo) || (hi <? s1))%N then (RuneError, 1%nat)
          else if (sz <=? 2)%nat then
            (N.lor (N.shiftl (N.land s0 31) 6) (N.land s1 63), 2%nat)
          else
            let s2 := byteAt s 2 in
            if ((s2 <? 128) || (191 <? s2))%N then (RuneError, 1%nat)
            else if (sz <=? 3)%nat then
              (N.lor (N.lor (N.shiftl (N.land s0 15) 12)
                            (N.shiftl (N.land s1 63) 6))
                     (N.land s2 63), 3%nat)
            else
              let s3 := byteAt s 3 in
              if ((s3 <? 128) || (191 <? s3))%N then (RuneError, 1%nat)
              else
                (N.lor (N.lor (N.lor (N.shiftl (N.land s0 7) 18)
                                     (N.shiftl (N.land s1 63) 12))
                              (N.shiftl (N.land s2 63) 6))
                       (N.land s3 63), 4%nat)
    end.

(** [utf8.RuneStart(b)]: [b] is not a continuation byte. *)
Definition RuneStart (b : N) : bool :=
  negb (N.land b 192 =? 128)%N.

(** The loop of [DecodeLastRuneInString] that goes back to the start of
    the last rune, not further than [lim]. *)
Fixpoint backToStart (fuel : nat) (s : string) (start lim : Z) : Z :=
  match fuel with
  | 0 => start
  | S fuel' =>
      if (start <? lim)%Z then start
      else if RuneStart (byteAt s (Z.to_nat start)) then start
      else backToStart fuel' s (start - 1)%Z lim
  end.

(** [utf8.DecodeLastRuneInString(s)]: the last rune of [s] and its width;
    [(RuneError, 1)] when [s] ends with no valid encoding. *)
Definition DecodeLastRuneInString (s : string) : N * nat :=
  let end_ := String.length s in
  if (end_ =? 0)%nat then (RuneError, 0%nat)
  else
    let r := byteAt s (end_ - 1) in
    if (r <? RuneSelf)%N then (r, 1%nat)
    else
      let lim := Z.max (Z.of_nat end_ - Z.of_nat UTFMax) 0 in
      let start := backToStart (S UTFMax) s (Z.of_nat end_ - 2)%Z lim in
      let start := Z.to_nat (if (start <? 0)%Z then 0%Z else start) in
      let '(r, size) := DecodeRuneInString (substring start (end_ - start) s) in
      if negb (start + size =? end_)%nat then (RuneError, 1%nat)
      else (r, size).

End utf8.

(** ** Package [unicode] *)
Module unicode.

(** [unicode.IsSpace(r)]: the code points with Unicode's White Space
    property. *)
Definition IsSpace (r : N) : bool :=
  ((9 <=? r) && (r <=? 13)               (* TAB, LF, VT, FF, CR *)
   || (r =? 32)                          (* space *)
   || (r =? 133) || (r =? 160)           (* U+0085, U+00A0 *)
   || (r =? 5760)                        (* U+1680 *)
   || (8192 <=? r) && (r <=? 8202)       (* U+2000 - U+200A *)
   || (r =? 8232) || (r =? 8233)         (* U+2028, U+2029 *)
   || (r =? 8239) || (r =? 8287)         (* U+202F, U+205F *)
   || (r =? 12288))%N.                   (* U+3000 *)

End unicode.

(** ** Package [strings] *)
Module strings.

(** [strings.Split(s, sep)] for a one-byte separator: every separator
    byte ends a component, so [n] separators give [n+1] components. *)
Fixpoint Split (s : string) (sep : ascii) : list string :=
  match s with
  | EmptyString => [EmptyString]
  | String a r =>
      if Ascii.eqb a sep then EmptyString :: Split r sep
      else match Split r sep with
           | c :: cs => String a c :: cs
           | [] => [String a EmptyString]
           end
  end.

(** [strings.Join(elems, sep)]. *)
Fixpoint Join (elems : list string) (sep : string) : string :=
  match elems with
  | [] => ""
  | [e] => e
  | e :: es => e +:+ sep +:+ Join es sep
  end.

(** The table [asciiSpace]: TAB, LF, VT, FF, CR and the space. *)
Definition asciiSpace (c : N) : bool :=
  ((9 <=? c) && (c <=? 13) || (c =? 32))%N.

(** [indexFunc(s, f, truth)]: the index of the first rune [r] of [s] with
    [f(r) == truth], going through [s] as [range] does (a byte that does
    not start a valid encoding is the rune [RuneError], one byte wide);
    [None] is Go's -1. *)
Fixpoint indexFunc_ (fuel : nat) (s : string) (i : nat)
    (f : N → bool) (truth : bool) : option nat :=
  match fuel with
  | 0 => None
  | S fuel' =>
      if (i <? String.length s)%nat then
        let '(r, size) :=
          utf8.DecodeRuneInString (substring i (String.length s - i) s) in
        if Bool.eqb (f r) truth then Some i
        else indexFunc_ fuel' s (i + size) f truth
      else None
  end.

Definition indexFunc (s : string) (f : N → bool) (truth : bool)
  : option nat :=
  indexFunc_ (S (String.length s)) s 0 f truth.

(** [lastIndexFunc(s, f, truth)], going back from index [i]. *)
Fixpoint lastIndexFunc_ (fuel : nat) (s : string) (i : nat)
    (f : N → bool) (truth : bool) : option nat :=
  match fuel with
  | 0 => None
  | S fuel' =>
      if (0 <? i)%nat then
        let '(r, size) := utf8.DecodeLastRuneInString (substring 0 i s) in
        let i := (i - size)%nat in
        if Bool.eqb (f r) truth then Some i
        else lastIndexFunc_ fuel' s i f truth
      else None
  end.

Definition lastIndexFunc (s : string) (f : N → bool) (truth : bool)
  : option nat :=
  lastIndexFunc_ (S (String.length s)) s (String.length s) f truth.

(** [strings.TrimLeftFunc(s, f)]. *)
Definition TrimLeftFunc (s : string) (f : N → bool) : string :=
  match indexFunc s f false with
  | None => ""
  | Some i => substring i (String.length s - i) s
  end.

(** [strings.TrimRightFunc(s, f)]. *)
Definition TrimRightFunc (s : string) (f : N → bool) : string :=
  match lastIndexFunc s f false with
  | Some i =>
      if (utf8.RuneSelf <=? utf8.byteAt s i)%N then
        let '(_, wid) :=
          utf8.DecodeRuneInString (substring i (String.length s - i) s) in
        substring 0 (i + wid) s
      else substring 0 (i + 1) s
  | None => substring 0 0 s                                   (* i++ from -1 *)
  end.

(** [strings.TrimFunc(s, f)]. *)
Definition TrimFunc (s : string) (f : N → bool) : string :=
  TrimRightFunc (TrimLeftFunc s f) f.

(** The first loop of [TrimSpace]: over the leading ASCII white space.  It
    gives the index [start] where it stops, or the result of the function
    when it meets a byte that is not ASCII. *)
Fixpoint TrimSpace_start (fuel : nat) (s : string) (start : nat)
  : string + nat :=
  match fuel with
  | 0 => inr start
  | S fuel' =>
      if (start <? String.length s)%nat then
        let c := utf8.byteAt s start in
        if (utf8.RuneSelf <=? c)%N then
          inl (TrimFunc (substring start (String.length s - start) s)
                        unicode.IsSpace)
        else if negb (asciiSpace c) then inr start
        else TrimSpace_start fuel' s (S start)
      else inr start
  end.

(** The second loop of [TrimSpace]: back over the trailing ASCII white
    space. *)
Fixpoint TrimSpace_stop (fuel : nat) (s : string) (start stop : nat)
  : string :=
  match fuel with
  | 0 => substring start (stop - start) s
  | S fuel' =>
      if (start <? stop)%nat then
        let c := utf8.byteAt s (stop - 1) in
        if (utf8.RuneSelf <=? c)%N then
          TrimRightFunc (substring start (stop - start) s) unicode.IsSpace
        else if negb (asciiSpace c) then substring start (stop - start) s
        else TrimSpace_stop fuel' s start (stop - 1)
      else substring start (stop - start) s
  end.

(** [strings.TrimSpace(s)]: [s] without its leading and trailing white
    space, as Unicode defines it. *)
Definition TrimSpace (s : string) : string :=
  match TrimSpace_start (S (String.length s)) s 0 with
  | inl trimmed => trimmed
  | inr start =>
      TrimSpace_stop (S (String.length s)) s start (String.length s)
  end.

(** A string holds the byte [c]. *)
Fixpoint Contains (s : string) (c : ascii) : bool :=
  match s with
  | EmptyString => false
  | String a r => Ascii.eqb a c || Contains r c
  end.

End strings.

(** ** Package [fmt] *)
Module fmt.

(** [fmt.Sprintf] for the verbs the program's formats use: [%s] and [%d]
    take the next operand (already rendered), [%%] is a percent sign.  A
    verb with no operand left prints as [%!v(MISSING)], as in Go; this
    happens only when an error message is itself used as a format
    ([ExitWithError(err.Error())]). *)
Fixpoint Sprintf (format : string) (a : list string) : string :=
  match format with
  | EmptyString => EmptyString
  | String "%" EmptyString => "%!(NOVERB)"
  | String "%" (String v rest) =>
      if Ascii.eqb v "%" then String "%" (Sprintf rest a)
      else match a with
           | x :: a' => x +:+ Sprintf rest a'
           | [] => "%!" +:+ String v "(MISSING)" +:+ Sprintf rest []
           end
  | String c rest => String c (Sprintf rest a)
  end.

End fmt.

(** ** Package [path/filepath], Unix flavour (separator [/], no volumes) *)
Module filepath.

Definition Separator : ascii := "/".

(** One step of [Clean]'s scan.  [out] is the stack of elements written
    so far, innermost first. *)
Definition cleanStep (rooted : bool) (out : list string) (elem : string)
  : list string :=
  if String.eqb elem "" then out             (* empty path element *)
  else if String.eqb elem "." then out       (* . element *)
  else if String.eqb elem ".." then
    match out with
    | top :: below =>
        if String.eqb top ".." then elem :: out   (* leading ../.. prefix *)
        else below                                (* can backtrack *)
    | [] => if rooted then out else [elem]
    end
  else elem :: out.                          (* real path element *)

Definition isRooted (path : string) : bool :=
  match path with
  | String a _ => Ascii.eqb a Separator
  | EmptyString => false
  end.

(** [filepath.Clean(path)]. *)
Definition Clean (path : string) : string :=
  let rooted := isRooted path in
  let out := foldl (cleanStep rooted) [] (strings.Split path Separator) in
  let body := strings.Join (rev out) "/" in
  if rooted then String Separator body
  else if String.eqb body "" then "." else body.

(** [filepath.Join(a, b)] for two elements: empty leading elements are
    dropped, the rest is joined by the separator and cleaned. *)
Definition Join (a b : string) : string :=
  if String.eqb a "" then
    if String.eqb b "" then "" else Clean b
  else Clean (a +:+ "/" +:+ b).

(** [filepath.Dir(path)]: all but the last element, cleaned. *)
Definition Dir (path : string) : string :=
  let elems := strings.Split path Separator in
  Clean (String.concat "" (map (λ e, e +:+ "/") (removelast elems))).

End filepath.

(** ** Go's [error] values *)

Inductive Errno := ENOENT | EISDIR | EACCES.

Definition Errno_Error (e : Errno) : string :=
  match e with
  | ENOENT => "no such file or directory"
  | EISDIR => "is a directory"
  | EACCES => "permission denied"
  end.

(** An [error] is a [*fs.PathError] of package [os] or a message
    ([fmt.Errorf], and the errors of [net/http] and [encoding/json]).  A
    Go variable of type [error] is an [option error]; [None] is [nil]. *)
Inductive error :=
| PathError (op path : string) (errno : Errno)
| errorString (s : string).

Definition Error (e : error) : string :=
  match e with
  | PathError op path errno => op +:+ " " +:+ path +:+ ": " +:+ Errno_Error errno
  | errorString s => s
  end.

(** An [error] operand of the verb [%s]. *)
Definition verb_s (err : option error) : string :=
  match err with
  | Some e => Error e
  | None => "%!s(<nil>)"
  end.

Definition Errorf (format : string) (a : list string) : error :=
  errorString (fmt.Sprintf format a).

(** ** Package [os]: the file system

    A path names a regular file, a directory, or nothing.  [denied] holds
    the paths that cannot be opened for writing (a read-only file or
    directory, a full disk): the program neither reads nor changes it. *)
Module os.

Inductive Node :=
| RegularFile (data : string)
| Directory.

Record FileSystem := {
  nodes : gmap string Node;
  denied : gset string
}.

(** [os.Stat(name)]: only the error is used by the program. *)
Definition Stat (fs : FileSystem) (name : string) : option error :=
  match nodes fs !! name with
  | Some _ => None
  | None => Some (PathError "stat" name ENOENT)
  end.

Definition IsNotExist (err : error) : bool :=
  match err with
  | PathError _ _ ENOENT => true
  | _ => false
  end.

(** [os.ReadFile(name)]: the data is empty when the read fails. *)
Definition ReadFile (fs : FileSystem) (name : string)
  : string * option error :=
  match nodes fs !! name with
  | Some (RegularFile data) => (data, None)
  | Some Directory => ("", Some (PathError "read" name EISDIR))
  | None => ("", Some (PathError "open" name ENOENT))
  end.

(** [os.WriteFile(name, data, 0644)]: creates or truncates the file; a
    refused write leaves the file system as it was. *)
Definition WriteFile (fs : FileSystem) (name data : string)
  : FileSystem * option error :=
  if bool_decide (name ∈ denied fs) then
    (fs, Some (PathError "open" name EACCES))
  else
    match nodes fs !! name with
    | Some Directory => (fs, Some (PathError "open" name EISDIR))
    | _ => ({| nodes := <[name := RegularFile data]> (nodes fs);
               denied := denied fs |}, None)
    end.

End os.

(** ** Package [net/http]: what the program sees of it *)

Record Request := {
  Method : string;
  URL : string;
  UserAgent : string
}.

(** The result of [io.ReadAll(resp.Body)]. *)
Inductive BodyRead :=
| ReadAll_ok (data : string)
| ReadAll_err (err : error).

Record Response := {
  StatusCode : Z;
  Body : BodyRead
}.

(** ** The process and its environment *)

Record World := {
  fs : os.FileSystem;
  logged : list string;    (* lines written by package log, oldest first *)
  printed : list string;   (* standard output *)
  sent : list Request      (* requests handed to httpClient.Do, oldest first *)
}.

(** How a computation ends: it returns, the process exits ([os.Exit]) or
    it panics. *)
Inductive Outcome (A : Type) :=
| Return (a : A)
| Exited (code : Z)
| Panicked (reason : string).
Arguments Return {A} a.
Arguments Exited {A} code.
Arguments Panicked {A} reason.

Definition M (A : Type) : Type := World → Outcome A * World.

Definition ret {A} (a : A) : M A := λ w, (Return a, w).

Definition bind {A B} (m : M A) (k : A → M B) : M B :=
  λ w, match m w with
       | (Return a, w') => k a w'
       | (Exited code, w') => (Exited code, w')
       | (Panicked reason, w') => (Panicked reason, w')
       end.

Notation "'let*' x ':=' m 'in' k" := (bind m (λ x, k))
  (at level 10, x pattern, m at level 100, k at level 200, only parsing).

Definition panic {A} (reason : string) : M A := λ w, (Panicked reason, w).

Definition os_Exit {A} (code : Z) : M A := λ w, (Exited code, w).

Definition nilDereference : string :=
  "runtime error: invalid memory address or nil pointer dereference".

(** [log.Printf(format, a...)] (without the time stamp). *)
Definition log_Printf (format : string) (a : list string) : M unit :=
  λ w, (Return tt, {| fs := fs w;
                      logged := (logged w ++ [fmt.Sprintf format a])%list;
                      printed := printed w;
                      sent := sent w |}).

(** [fmt.Printf(format, a...)]. *)
Definition fmt_Printf (format : string) (a : list string) : M unit :=
  λ w, (Return tt, {| fs := fs w;
                      logged := logged w;
                      printed := (printed w ++ [fmt.Sprintf format a])%list;
                      sent := sent w |}).

Definition os_Stat (name : string) : M (option error) :=
  λ w, (Return (os.Stat (fs w) name), w).

Definition os_ReadFile (name : string) : M (string * option error) :=
  λ w, (Return (os.ReadFile (fs w) name), w).

Definition os_WriteFile (name data : string) : M (option error) :=
  λ w, let '(fs', err) := os.WriteFile (fs w) name data in
       (Return err, {| fs := fs';
                       logged := logged w;
                       printed := printed w;
                       sent := sent w |}).

(** ** helper/helper.go *)

Record Config := {
  Hostname : string;
  Username : string;
  Password : string
}.

Record Configs := {
  IPAddress : string;
  Configs_ : list Config      (* the field [Configs] *)
}.

Definition version : string := "0.0.5".
Definition defaultConfigFilename : string := "config.json".
Definition ipCacheFilename : string := "ip.cache".
Definition checkIPURL : string := "https://domains.google.com/checkip".
Definition apiURLFormat : string :=
  "https://%s:%s@domains.google.com/nic/update?hostname=%s&myip=%s".
Definition userAgentFormat : string := "Google-DDNS-Updater/%s (golang; %s; %s)".
Definition fallbackIP : string := "0.0.0.0".

Definition helpMessage : string := "
Help:

# show this help message
$ google-ddns-updater -h

# run updater with config file
$ google-ddns-updater -c /path/to/config-file.json

# update specific domains in config file
$ google-ddns-updater subdomain1.domain.com subdomain2.domain.com -c /path/to/config-file.json

# update specific domains with certain ip address
$ google-ddns-updater -i 255.255.255.255 subdomain1.domain.com subdomain2.domain.com -c /path/to/config-file.json
".

(** [ipCacheFilepath]: the cache file of a hostname. *)
Definition ipCacheFilepath (cacheDir hostname : string) : string :=
  filepath.Join cacheDir (ipCacheFilename +:+ "." +:+ hostname).

(** [ConfigForHostname]: the first configuration of that hostname. *)
Fixpoint ConfigForHostname_ (confs : list Config) (hostname : string)
  : option Config :=
  match confs with
  | [] => None
  | conf :: rest =>
      if String.eqb (Hostname conf) hostname then Some conf
      else ConfigForHostname_ rest hostname
  end.

Definition ConfigForHostname (confs : Configs) (hostname : string)
  : option Config :=
  ConfigForHostname_ (Configs_ confs) hostname.

(** [ExitWithError]. *)
Definition ExitWithError {A} (format : string) (a : list string) : M A :=
  let* _ := log_Printf format a in os_Exit 1.

(** [ExitWithHelpMessage]. *)
Definition ExitWithHelpMessage {A} : M A :=
  let* _ := fmt_Printf helpMessage [] in os_Exit 0.

Section Program.

(** [runtime.GOOS] and [runtime.GOARCH]. *)
Variables GOOS GOARCH : string.

(** [os.Executable()]. *)
Variable os_Executable : string * option error.

(** [json.Unmarshal(file, &result)]: the decoded configurations, or the
    decoder's error. *)
Variable json_Unmarshal : string → Configs + error.

(** The error of [http.NewRequest(method, url, nil)], [None] when the
    request is built. *)
Variable http_NewRequest : string → string → option error.

(** The peer: what [httpClient.Do(req)] returns, given the requests made
    before.  The pair is Go's [(resp, err)]; [None] is [nil]. *)
Variable peer : list Request → Request → option Response * option error.

Definition httpClient_Do (req : Request)
  : M (option Response * option error) :=
  λ w, (Return (peer (sent w) req),
        {| fs := fs w;
           logged := logged w;
           printed := printed w;
           sent := (sent w ++ [req])%list |}).

Definition userAgent : string :=
  fmt.Sprintf userAgentFormat [version; GOOS; GOARCH].

Definition pwd : M string :=
  match os_Executable with
  | (execFilepath, None) => ret (filepath.Dir execFilepath)
  | (_, Some err) => panic (Error err)
  end.

Definition DefaultConfFilepath : M string :=
  let* dir := pwd in ret (filepath.Join dir defaultConfigFilename).

Definition ReadConfigs (filepath : string) : M (Configs * option error) :=
  let* (file, err) := os_ReadFile filepath in
  match err with
  | None =>
      match json_Unmarshal file with
      | inl result => ret (result, None)
      | inr err => ret ({| IPAddress := ""; Configs_ := [] |}, Some err)
      end
  | Some _ => ret ({| IPAddress := ""; Configs_ := [] |}, err)
  end.

Definition GetExternalIP : M (string * option error) :=
  match http_NewRequest "GET" checkIPURL with
  | None =>
      let req := {| Method := "GET"; URL := checkIPURL;
                    UserAgent := userAgent |} in
      let* (resp, err) := httpClient_Do req in
      match err, resp with
      | None, Some resp =>
          if (StatusCode resp =? 200)%Z then
            match Body resp with
            | ReadAll_ok body => ret (strings.TrimSpace body, None)
            | ReadAll_err err =>
                ret (fallbackIP,
                     Some (Errorf "failed to read external ip: %s"
                                  [Error err]))
            end
          else
            ret (fallbackIP,
                 Some (Errorf "failed to fetch external ip: %s (http %d)"
                              [verb_s err; pretty (StatusCode resp)]))
      | Some _, Some resp =>
          ret (fallbackIP,
               Some (Errorf "failed to fetch external ip: %s (http %d)"
                            [verb_s err; pretty (StatusCode resp)]))
      | _, None => panic nilDereference      (* resp.StatusCode *)
      end
  | Some err => ret (fallbackIP, Some err)
  end.

Definition cacheIP (conf : Config) (cacheDir ip : string)
  : M (option error) :=
  let filepath := ipCacheFilepath cacheDir (Hostname conf) in
  let* _ := log_Printf "caching ip: %s to file: %s" [ip; filepath] in
  os_WriteFile filepath ip.

Definition LoadCachedIP (conf : Config) (cacheDir : string)
  : M (string * option error) :=
  let filepath := ipCacheFilepath cacheDir (Hostname conf) in
  let* err := os_Stat filepath in
  if match err with Some e => os.IsNotExist e | None => false end then
    let* _ := log_Printf "ip cache file: %s does not exist" [filepath] in
    let* _ := cacheIP conf cacheDir fallbackIP in
    ret (fallbackIP, None)
  else
    let* (data, err) := os_ReadFile filepath in
    match err with
    | None =>
        let* _ := log_Printf "loaded cached ip: %s from file: %s"
                        [data; filepath] in
        ret (data, err)
    | Some _ => ret (data, err)
    end.

Definition checkResponse (conf : Config) (cacheDir response ip : string)
  : M (option error) :=
  let comps := strings.Split response " " in
  match comps with
  | comps0 :: comps1 :: _ =>                      (* len(comps) >= 2 *)
      let* err := (if String.eqb ip comps1 then
                let* _ := cacheIP conf cacheDir ip in ret None
              else
                ret (Some (Errorf
                  "returned ip differs from the requested one: %s and %s"
                  [comps1; ip]))) in
      let* _ := (if String.eqb comps0 "good" then
              log_Printf "update was successful" []
            else if String.eqb comps0 "nochg" then
              log_Printf "ip address: %s is already set for hostname: %s"
                         [ip; Hostname conf]
            else ret tt) in
      ret err
  | _ =>
      ret (Some (
        if String.eqb response "nohost" then
          Errorf "hostname: %s does not exist, or does not have ddns enabled"
                 [Hostname conf]
        else if String.eqb response "badauth" then
          Errorf "username and password combination: %s / %s is not valid for hostname: %s"
                 [Username conf; Password conf; Hostname conf]
        else if String.eqb response "notfqdn" then
          Errorf "supplied hostname: %s is not a valid fully-qualified domain name"
                 [Hostname conf]
        else if String.eqb response "badagent" then
          Errorf "user agent: %s is not valid" [userAgent]
        else if String.eqb response "abuse" then
          Errorf "access for the hostname: %s has been blocked due to failure to interpret previous responses correctly"
                 [Hostname conf]
        else if String.eqb response "911" then
          Errorf "internal server error on google" []
        else
          Errorf "unhandled response from server: %s" [response]))
  end.

Definition UpdateIP (conf : Config) (cacheDir ip : string)
  : M (option error) :=
  let apiURL := fmt.Sprintf apiURLFormat
                  [Username conf; Password conf; Hostname conf; ip] in
  match http_NewRequest "POST" apiURL with
  | None =>
      let req := {| Method := "POST"; URL := apiURL;
                    UserAgent := userAgent |} in
      let* (resp, err) := httpClient_Do req in
      match err with
      | None =>
          match resp with
          | Some resp =>
              match Body resp with
              | ReadAll_ok bytes => checkResponse conf cacheDir bytes ip
              | ReadAll_err err => ret (Some err)
              end
          | None => panic nilDereference       (* resp.Body *)
          end
      | Some _ => ret err
      end
  | Some err => ret (Some err)
  end.

(** ** main.go *)

(** The variables of [main]'s scan of the command line. *)
Record Flags := {
  needIP : bool;
  needConf : bool;
  ipAddr : string;
  hostnames : list string;
  confFilepath : string
}.

(** The body of [for _, arg := range args]. *)
Definition main_arg (v : Flags) (arg : string) : M Flags :=
  if String.eqb arg "-h" || String.eqb arg "--help" then
    ExitWithHelpMessage
  else if String.eqb arg "-i" || String.eqb arg "--ip" then
    let* _ := (if needConf v then ExitWithHelpMessage else ret tt) in
    ret {| needIP := true; needConf := needConf v; ipAddr := ipAddr v;
           hostnames := hostnames v; confFilepath := confFilepath v |}
  else if String.eqb arg "-c" || String.eqb arg "--config" then
    let* _ := (if needIP v then ExitWithHelpMessage else ret tt) in
    ret {| needIP := needIP v; needConf := true; ipAddr := ipAddr v;
           hostnames := hostnames v; confFilepath := confFilepath v |}
  else if needIP v then
    ret {| needIP := false; needConf := needConf v; ipAddr := arg;
           hostnames := hostnames v; confFilepath := confFilepath v |}
  else if needConf v then
    ret {| needIP := needIP v; needConf := false; ipAddr := ipAddr v;
           hostnames := hostnames v; confFilepath := arg |}
  else
    ret {| needIP := needIP v; needConf := needConf v; ipAddr := ipAddr v;
           hostnames := (hostnames v ++ [arg])%list;
           confFilepath := confFilepath v |}.

Fixpoint main_args (v : Flags) (args : list string) : M Flags :=
  match args with
  | [] => ret v
  | arg :: rest => let* v' := main_arg v arg in main_args v' rest
  end.

(** The body of [for _, hostname := range hostnames]; [err] is [main]'s
    variable [err], which the loop reads and assigns. *)
Definition main_hostname (confs : Configs) (cacheDir ipAddr : string)
    (err : option error) (hostname : string) : M (option error) :=
  let* _ := log_Printf "processing hostname: %s" [hostname] in
  match ConfigForHostname confs hostname with
  | None =>
      let* _ := log_Printf "no such hostname: %s in the configs"
                           [hostname] in
      ret err                                              (* continue *)
  | Some conf =>
      let* (savedIP, err) := LoadCachedIP conf cacheDir in
      match err with
      | None =>
          if negb (String.eqb ipAddr savedIP) then
            let* updateErr := UpdateIP conf cacheDir ipAddr in
            match updateErr with
            | Some e =>
                let* _ := log_Printf
                  "failed to update ip: %s for hostname: %s (%s)"
                  [ipAddr; Hostname conf; Error e] in
                ret updateErr
            | None => ret err
            end
          else
            let* _ := log_Printf
              "cached ip address: %s is already set for hostname: %s"
              [savedIP; Hostname conf] in
            ret err
      | Some _ => ret err
      end
  end.

Fixpoint main_hostnames (confs : Configs) (cacheDir ipAddr : string)
    (err : option error) (hostnames : list string) : M (option error) :=
  match hostnames with
  | [] => ret err
  | hostname :: rest =>
      let* err' := main_hostname confs cacheDir ipAddr err hostname in
      main_hostnames confs cacheDir ipAddr err' rest
  end.

(** [main], run with the command-line arguments [args] ([os.Args[1:]]).
    Returning is a normal end of the process. *)
Definition main (args : list string) : M unit :=
  let* confFilepath0 := DefaultConfFilepath in
  let* v := main_args {| needIP := false; needConf := false; ipAddr := "";
                         hostnames := []; confFilepath := confFilepath0 |}
                      args in
  let* _ := (if needIP v || needConf v then ExitWithHelpMessage
             else ret tt) in
  (* load configs *)
  let* (confs, err) := ReadConfigs (confFilepath v) in
  let* _ := (match err with
             | None => log_Printf "loaded configs file at: %s"
                                  [confFilepath v]
             | Some _ => ExitWithError "failed to read configs file at: %s"
                                       [confFilepath v]
             end) in
  (* if no hosts were given, load all hosts from configs *)
  let hostnames :=
    if (length (hostnames v) <=? 0)%nat
    then (hostnames v ++ map Hostname (Configs_ confs))%list
    else hostnames v in
  (* if no ip address was given, load it from the configs *)
  let ipAddr := if String.eqb (ipAddr v) "" then IPAddress confs
                else ipAddr v in
  (* if ip address was not in the configs, fetch it from google domains *)
  let* (ipAddr, err) :=
    (if String.eqb ipAddr "" then
       let* (ipAddr, err) := GetExternalIP in
       let* _ := (match err with
                  | None => log_Printf "fetched external ip: %s" [ipAddr]
                  | Some _ => ret tt
                  end) in
       ret (ipAddr, err)
     else ret (ipAddr, err)) in
  (* will not work without an ip address... *)
  let* err :=
    (if negb (String.eqb ipAddr "") then
       let cacheDir := filepath.Dir (confFilepath v) in
       main_hostnames confs cacheDir ipAddr err hostnames
     else ret err) in
  (* check error *)
  match err with
  | Some e => ExitWithError (Error e) []
  | None => log_Printf "update finished" []
  end.

End Program.

(** ** Vocabulary of the statements *)

(** A token: a string without a space. *)
Definition token (s : string) : Prop := strings.Contains s " " = false.

(** A file name: a string without the path separator. *)
Definition separatorFree (s : string) : Prop :=
  strings.Contains s filepath.Separator = false.

(** A path element that [Clean] keeps: a name other than the empty one,
    [.] and [..], without a separator. *)
Definition realElement (name : string) : Prop :=
  separatorFree name
  ∧ String.eqb name "" = false
  ∧ String.eqb name "." = false
  ∧ String.eqb name ".." = false.

(** The line [main] logs when it takes up a hostname. *)
Definition processing (hostname : string) : string :=
  fmt.Sprintf "processing hostname: %s" [hostname].

(** The request [UpdateIP] builds for a configuration and an IP. *)
Definition updateRequest (GOOS GOARCH : string) (conf : Config) (ip : string)
  : Request :=
  {| Method := "POST";
     URL := fmt.Sprintf apiURLFormat
              [Username conf; Password conf; Hostname conf; ip];
     UserAgent := userAgent GOOS GOARCH |}.

(** The request [GetExternalIP] builds. *)
Definition probeRequest (GOOS GOARCH : string) : Request :=
  {| Method := "GET"; URL := checkIPURL; UserAgent := userAgent GOOS GOARCH |}.

(** The body a reply of the peer delivers, if it delivers one. *)
Definition replyBody (reply : option Response * option error)
  : option string :=
  match reply with
  | (Some resp, None) =>
      match Body resp with
      | ReadAll_ok body => Some body
      | ReadAll_err _ => None
      end
  | _ => None
  end.

(** The response has at least two components and the second is [ip]. *)
Definition echoes (response ip : string) : bool :=
  match strings.Split response " " with
  | _ :: comps1 :: _ => String.eqb ip comps1
  | _ => false
  end.

(** The update request for [ip] is built, and the peer's reply to it
    delivers a body that echoes [ip]. *)
Definition accepted (GOOS GOARCH : string)
    (http_NewRequest : string → string → option error)
    (peer : list Request → Request → option Response * option error)
    (conf : Config) (ip : string) (w : World) : bool :=
  let req := updateRequest GOOS GOARCH conf ip in
  match http_NewRequest "POST" (URL req) with
  | Some _ => false
  | None =>
      match replyBody (peer (sent w) req) with
      | Some body => echoes body ip
      | None => false
      end
  end.

(** A write to [name] is not refused. *)
Definition writable (fs : os.FileSystem) (name : string) : Prop :=
  (name ∉ os.denied fs) ∧ (os.nodes fs !! name ≠ Some os.Directory).

(** What a load of the cache file [name] yields, as a function of the file
    system. *)
Definition cached (fs : os.FileSystem) (name : string)
  : string * option error :=
  match os.nodes fs !! name with
  | None => (fallbackIP, None)
  | Some _ => os.ReadFile fs name
  end.

(** The file system after a load of the cache file [name]. *)
Definition loaded (fs : os.FileSystem) (name : string) : os.FileSystem :=
  match os.nodes fs !! name with
  | None => (os.WriteFile fs name fallbackIP).1
  | Some _ => fs
  end.

(** The line [main] logs for a hostname whose cached IP is the resolved
    one. *)
Definition alreadySet (ip : string) (conf : Config) : string :=
  fmt.Sprintf "cached ip address: %s is already set for hostname: %s"
              [ip; Hostname conf].

(** The client's contract: [Do] returns a response or an error. *)
Definition wellBehaved
    (peer : list Request → Request → option Response * option error) : Prop :=
  ∀ before req, peer before req ≠ (None, None).

(** The arguments [main] reads as flags. *)
Definition isHelpFlag (arg : string) : bool :=
  String.eqb arg "-h" || String.eqb arg "--help".

Definition isIPFlag (arg : string) : bool :=
  String.eqb arg "-i" || String.eqb arg "--ip".

Definition isConfFlag (arg : string) : bool :=
  String.eqb arg "-c" || String.eqb arg "--config".

Definition isFlag (arg : string) : bool :=
  isHelpFlag arg || isIPFlag arg || isConfFlag arg.

(** [main]'s variables before the scan of the command line. *)
Definition startFlags (confFilepath : string) : Flags :=
  {| needIP := false; needConf := false; ipAddr := "";
     hostnames := []; confFilepath := confFilepath |}.

(** The world after [ExitWithHelpMessage] has printed. *)
Definition helped (w : World) : World :=
  {| fs := fs w; logged := logged w;
     printed := printed w ++ [helpMessage]; sent := sent w |}.

(** The world after a line has been logged. *)
Definition logging (line : string) (w : World) : World :=
  {| fs := fs w; logged := logged w ++ [line];
     printed := printed w; sent := sent w |}.

(** What a well-formed command line is made of: a hostname, an IP after
    [-i] or [--ip], a configuration file after [-c] or [--config]. *)
Inductive Item :=
| Host (hostname : string)
| IPArg (long : bool) (ip : string)
| ConfArg (long : bool) (path : string).

Definition itemValue (item : Item) : string :=
  match item with
  | Host hostname => hostname
  | IPArg _ ip => ip
  | ConfArg _ path => path
  end.

Definition render (item : Item) : list string :=
  match item with
  | Host hostname => [hostname]
  | IPArg long ip => [if long then "--ip" else "-i"; ip]
  | ConfArg long path => [if long then "--config" else "-c"; path]
  end.

(** What an item does to [main]'s variables. *)
Definition applyItem (v : Flags) (item : Item) : Flags :=
  match item with
  | Host hostname =>
      {| needIP := needIP v; needConf := needConf v; ipAddr := ipAddr v;
         hostnames := hostnames v ++ [hostname];
         confFilepath := confFilepath v |}
  | IPArg _ ip =>
      {| needIP := needIP v; needConf := needConf v; ipAddr := ip;
         hostnames := hostnames v; confFilepath := confFilepath v |}
  | ConfArg _ path =>
      {| needIP := needIP v; needConf := needConf v; ipAddr := ipAddr v;
         hostnames := hostnames v; confFilepath := path |}
  end.

(** [main] from [if no hosts were given] on: the configurations [confs]
    are loaded, [v] holds the variables of the scan and [err] is nil. *)
Definition main_batch (GOOS GOARCH : string)
    (http_NewRequest : string → string → option error)
    (peer : list Request → Request → option Response * option error)
    (confs : Configs) (v : Flags) (err : option error) : M unit :=
  let hostnames :=
    if (length (hostnames v) <=? 0)%nat
    then (hostnames v ++ map Hostname (Configs_ confs))%list
    else hostnames v in
  let ipAddr := if String.eqb (ipAddr v) "" then IPAddress confs
                else ipAddr v in
  let* (ipAddr, err) :=
    (if String.eqb ipAddr "" then
       let* (ipAddr, err) := GetExternalIP GOOS GOARCH http_NewRequest peer in
       let* _ := (match err with
                  | None => log_Printf "fetched external ip: %s" [ipAddr]
                  | Some _ => ret tt
                  end) in
       ret (ipAddr, err)
     else ret (ipAddr, err)) in
  let* err :=
    (if negb (String.eqb ipAddr "") then
       let cacheDir := filepath.Dir (confFilepath v) in
       main_hostnames GOOS GOARCH http_NewRequest peer
                      confs cacheDir ipAddr err hostnames
     else ret err) in
  match err with
  | Some e => ExitWithError (Error e) []
  | None => log_Printf "update finished" []
  end.

(** The end of [main]: the check of [err]. *)
Definition main_check (err : option error) : M unit :=
  match err with
  | Some e => ExitWithError (Error e) []
  | None => log_Printf "update finished" []
  end.

(** The hostnames [main] goes through. *)
Definition batchHostnames (confs : Configs) (v : Flags) : list string :=
  match hostnames v with
  | [] => map Hostname (Configs_ confs)
  | _ => hostnames v
  end.

(** The world after a request has been handed to the client. *)
Definition sending (req : Request) (w : World) : World :=
  {| fs := fs w; logged := logged w; printed := printed w;
     sent := sent w ++ [req] |}.

(** The lines [main] logs for a hostname that is not in the
    configurations. *)
Definition unknownLines (hostname : string) : list string :=
  [processing hostname;
   fmt.Sprintf "no such hostname: %s in the configs" [hostname]].

(** The update requests for [ip] of the entries of [hostnames] that are
    configured: one for each such entry, in the order of the list (a
    hostname named twice has two). *)
Definition updateRequests (GOOS GOARCH : string) (confs : Configs)
    (ip : string) (hostnames : list string) : list Request :=
  omap (λ hostname,
          (λ conf, updateRequest GOOS GOARCH conf ip)
          <$> ConfigForHostname confs hostname) hostnames.

(** ** Sample environments *)
Module Sample.

Definition GOOS : string := "linux".
Definition GOARCH : string := "amd64".

Definition confA : Config :=
  {| Hostname := "a.example.com"; Username := "u"; Password := "p" |}.

Definition confB : Config :=
  {| Hostname := "b.example.com"; Username := "v"; Password := "q" |}.

Definition confs : Configs :=
  {| IPAddress := ""; Configs_ := [confA; confB] |}.

Definition cacheDir : string := "/etc/ddns".
Definition confFile : string := "/etc/ddns/config.json".
Definition cacheA : string := "/etc/ddns/ip.cache.a.example.com".
Definition cacheB : string := "/etc/ddns/ip.cache.b.example.com".

Definition executable : string * option error :=
  ("/usr/local/bin/google-ddns-updater", None).

Definition decode (file : string) : Configs + error := inl confs.

Definition newRequest (method url : string) : option error := None.

Definition world (nodes : list (string * os.Node)) (denied : list string)
  : World :=
  {| fs := {| os.nodes := list_to_map ((confFile, os.RegularFile "{}") :: nodes);
              os.denied := list_to_set denied |};
     logged := []; printed := []; sent := [] |}.

(** A peer that answers every update with the same body, and the probe
    with the given status and body. *)
Definition peer (probeStatus : Z) (probeBody update : string)
    (before : list Request) (req : Request)
  : option Response * option error :=
  if String.eqb (Method req) "GET" then
    (Some {| StatusCode := probeStatus; Body := ReadAll_ok probeBody |}, None)
  else
    (Some {| StatusCode := 200; Body := ReadAll_ok update |}, None).

(** A peer that rejects the updates of [a.example.com] and accepts the
    others, echoing [ip]. *)
Definition peerRejectingA (ip : string)
    (before : list Request) (req : Request)
  : option Response * option error :=
  if String.eqb (URL req)
       (URL (updateRequest GOOS GOARCH confA ip)) then
    (Some {| StatusCode := 200; Body := ReadAll_ok "badauth" |}, None)
  else
    (Some {| StatusCode := 200; Body := ReadAll_ok ("good " +:+ ip) |}, None).

(** A peer that answers every request with the given status and body. *)
Definition peerStatus (status : Z) (body : string)
    (before : list Request) (req : Request)
  : option Response * option error :=
  (Some {| StatusCode := status; Body := ReadAll_ok body |}, None).

(** A peer whose replies cannot be read to the end. *)
Definition peerBroken (before : list Request) (req : Request)
  : option Response * option error :=
  (Some {| StatusCode := 200;
           Body := ReadAll_err (errorString "unexpected EOF") |}, None).

(** A line feed. *)
Definition LF : ascii := "010".

(** The no-break space U+00A0, in UTF-8. *)
Definition NBSP : string := String "194" (String "160" "").

(** A peer that cannot be reached. *)
Definition peerUnreachable (before : list Request) (req : Request)
  : option Response * option error :=
  (None, Some (errorString "dial tcp: i/o timeout")).

End Sample.

(** ** Strings and paths *)

Section StringFacts.

Lemma append_cons a s t : String a s +:+ t = String a (s +:+ t).
Proof. reflexivity. Qed.

Lemma append_nil_r s : s +:+ "" = s.
Proof.
  induction s as [|a s IH]; [done|]. rewrite append_cons. congruence.
Qed.

Lemma append_assoc s t u : (s +:+ t) +:+ u = s +:+ t +:+ u.
Proof.
  induction s as [|a s IH]; [done|]. rewrite !append_cons. congruence.
Qed.

Lemma append_inj_l p s t : p +:+ s = p +:+ t → s = t.
Proof.
  induction p as [|a p IH]; [done|]. rewrite !append_cons. intros [=]. auto.
Qed.

Lemma append_eq_nil s t : s +:+ t = "" → t = "".
Proof. destruct s; [done|]. rewrite append_cons. discriminate. Qed.

Lemma Split_nonempty s c : strings.Split s c ≠ [].
Proof.
  destruct s as [|a s]; simpl; [done|].
  destruct (Ascii.eqb a c); [done|]. by destruct (strings.Split s c).
Qed.

Lemma Split_no_sep s c :
  strings.Contains s c = false → strings.Split s c = [s].
Proof.
  induction s as [|a s IH]; simpl; [done|].
  destruct (Ascii.eqb a c); simpl; [done|].
  intros H. by rewrite (IH H).
Qed.

Lemma Split_app s t c :
  strings.Split (s +:+ String c t) c
  = (strings.Split s c ++ strings.Split t c)%list.
Proof.
  induction s as [|a s IH]; [simpl; by rewrite Ascii.eqb_refl|].
  rewrite append_cons. simpl.
  destruct (Ascii.eqb a c); simpl; [by rewrite IH|].
  rewrite IH. pose proof (Split_nonempty s c).
  by destruct (strings.Split s c).
Qed.

Lemma Split_two status echoed :
  token status → token echoed →
  strings.Split (status +:+ " " +:+ echoed) " " = [status; echoed].
Proof.
  intros Hs He. change (" " +:+ echoed) with (String " " echoed).
  by rewrite Split_app, !Split_no_sep.
Qed.

Lemma echoes_two status echoed ip :
  token status → token echoed →
  echoes (status +:+ " " +:+ echoed) ip = String.eqb ip echoed.
Proof. intros Hs He. unfold echoes. by rewrite Split_two. Qed.

Lemma echoes_single response ip : token response → echoes response ip = false.
Proof. intros H. unfold echoes. by rewrite Split_no_sep. Qed.

(** [TrimSpace] beyond ASCII: U+0085, U+3000, U+2028, U+1680 and U+00A0
    around a text are stripped with the blanks and line feeds next to
    them; a byte that starts no valid encoding is not white space, and
    stops the trimming. *)
Lemma TrimSpace_unicode :
  strings.TrimSpace
    (String "194" (String "133" (String " " (String "227" (String "128"
       (String "128" "9.9.9.9"))))) +:+
     String "226" (String "128" (String "168" (String "010" (String "225"
       (String "154" (String "128" (String "194" (String "160" "")))))))))
  = "9.9.9.9"
  ∧ strings.TrimSpace (String "160" " x " +:+ String "194" "")
    = String "160" " x " +:+ String "194" ""
  ∧ strings.TrimSpace (String "009" " x y " +:+ String "013" "") = "x y".
Proof. by vm_compute. Qed.

End StringFacts.

(** ** The file system *)

Section FileSystemFacts.

Implicit Types (fs : os.FileSystem) (name data : string).

Lemma WriteFile_denied fs name data :
  os.denied (os.WriteFile fs name data).1 = os.denied fs.
Proof. unfold os.WriteFile. by repeat case_match. Qed.

Lemma WriteFile_other fs name data other :
  name ≠ other →
  os.nodes (os.WriteFile fs name data).1 !! other = os.nodes fs !! other.
Proof.
  intros Hne. unfold os.WriteFile.
  repeat case_match; simpl; by rewrite ?lookup_insert_ne.
Qed.

Lemma WriteFile_writable fs name data :
  writable fs name →
  os.WriteFile fs name data
  = ({| os.nodes := <[name := os.RegularFile data]> (os.nodes fs);
        os.denied := os.denied fs |}, None).
Proof.
  intros [Hd Hn]. unfold os.WriteFile.
  rewrite bool_decide_eq_false_2 by done.
  by repeat case_match.
Qed.

Lemma WriteFile_lookup fs name data :
  writable fs name →
  os.nodes (os.WriteFile fs name data).1 !! name
  = Some (os.RegularFile data).
Proof.
  intros H. rewrite WriteFile_writable by done. simpl.
  by rewrite lookup_insert_eq.
Qed.

Lemma WriteFile_refused fs name data :
  ¬ writable fs name → (os.WriteFile fs name data).1 = fs.
Proof.
  intros H. unfold os.WriteFile. case_bool_decide; [done|].
  repeat case_match; try done.
  all: exfalso; apply H; split; congruence.
Qed.

(** A write is a regular file with the data written, or no change. *)
Lemma WriteFile_cases fs name data other :
  os.nodes (os.WriteFile fs name data).1 !! other = os.nodes fs !! other
  ∨ (other = name
     ∧ os.nodes (os.WriteFile fs name data).1 !! other
       = Some (os.RegularFile data)).
Proof.
  destruct (decide (name = other)) as [<-|Hne].
  - unfold os.WriteFile. repeat case_match; simpl; auto.
    all: right; by rewrite lookup_insert_eq.
  - left. by apply WriteFile_other.
Qed.

Lemma cached_regular fs name data :
  os.nodes fs !! name = Some (os.RegularFile data) →
  cached fs name = (data, None).
Proof. intros H. unfold cached, os.ReadFile. by rewrite H. Qed.

Lemma cached_missing fs name :
  os.nodes fs !! name = None → cached fs name = (fallbackIP, None).
Proof. intros H. unfold cached. by rewrite H. Qed.

End FileSystemFacts.

(** ** Effects of the helpers *)

Section HelperFacts.

Variables GOOS GOARCH : string.
Variable http_NewRequest : string → string → option error.
Variable peer : list Request → Request → option Response * option error.

Implicit Types (conf : Config) (cacheDir ip response : string) (w : World).

Local Arguments cacheIP : simpl never.
Local Arguments fmt.Sprintf : simpl never.

Lemma cacheIP_eq conf cacheDir ip w :
  let name := ipCacheFilepath cacheDir (Hostname conf) in
  cacheIP conf cacheDir ip w
  = (Return (os.WriteFile (fs w) name ip).2,
     {| fs := (os.WriteFile (fs w) name ip).1;
        logged := logged w
                  ++ [fmt.Sprintf "caching ip: %s to file: %s" [ip; name]];
        printed := printed w;
        sent := sent w |}).
Proof.
  unfold cacheIP, bind, log_Printf, os_WriteFile. simpl.
  by destruct (os.WriteFile _ _ _).
Qed.

Lemma LoadCachedIP_result conf cacheDir w :
  (LoadCachedIP conf cacheDir w).1
  = Return (cached (fs w) (ipCacheFilepath cacheDir (Hostname conf))).
Proof.
  unfold LoadCachedIP, cached, bind, os_Stat, os_ReadFile, os.Stat,
    os.ReadFile, log_Printf, ret; simpl.
  destruct (os.nodes (fs w) !! _) as [[data|]|] eqn:H; simpl;
    rewrite ?H, ?cacheIP_eq; done.
Qed.

Lemma LoadCachedIP_fs conf cacheDir w :
  let name := ipCacheFilepath cacheDir (Hostname conf) in
  fs (LoadCachedIP conf cacheDir w).2
  = match os.nodes (fs w) !! name with
    | None => (os.WriteFile (fs w) name fallbackIP).1
    | Some _ => fs w
    end.
Proof.
  unfold LoadCachedIP, bind, os_Stat, os_ReadFile, os.Stat,
    os.ReadFile, log_Printf, ret; simpl.
  destruct (os.nodes (fs w) !! _) as [[data|]|] eqn:H; simpl;
    rewrite ?H, ?cacheIP_eq; done.
Qed.

Lemma LoadCachedIP_sent conf cacheDir w :
  sent (LoadCachedIP conf cacheDir w).2 = sent w.
Proof.
  unfold LoadCachedIP, bind, os_Stat, os_ReadFile, os.Stat,
    os.ReadFile, log_Printf, ret; simpl.
  destruct (os.nodes (fs w) !! _) as [[data|]|] eqn:H; simpl;
    rewrite ?H, ?cacheIP_eq; done.
Qed.

(** A load does not change what any load yields. *)
Lemma LoadCachedIP_cached conf cacheDir w name :
  cached (fs (LoadCachedIP conf cacheDir w).2) name = cached (fs w) name.
Proof.
  rewrite LoadCachedIP_fs.
  destruct (os.nodes (fs w) !! ipCacheFilepath _ _) eqn:Hmiss; [done|].
  destruct (WriteFile_cases (fs w) (ipCacheFilepath cacheDir (Hostname conf))
              fallbackIP name) as [Heq|[-> Heq]].
  - unfold cached, os.ReadFile. by rewrite Heq.
  - by rewrite (cached_regular _ _ _ Heq), cached_missing.
Qed.

Lemma checkResponse_returns conf cacheDir response ip w :
  ∃ err, (checkResponse GOOS GOARCH conf cacheDir response ip w).1
         = Return err.
Proof.
  unfold checkResponse.
  destruct (strings.Split response " ") as [|c0 [|c1 rest]];
    [by eexists..|].
  unfold bind, ret, log_Printf.
  destruct (String.eqb ip c1); rewrite ?cacheIP_eq;
    repeat case_match; simplify_eq/=; by eexists.
Qed.

Lemma checkResponse_nil conf cacheDir response ip w :
  (checkResponse GOOS GOARCH conf cacheDir response ip w).1 = Return None
  ↔ echoes response ip = true.
Proof.
  unfold checkResponse, echoes.
  destruct (strings.Split response " ") as [|c0 [|c1 rest]];
    [done..|].
  unfold bind, ret, log_Printf.
  destruct (String.eqb ip c1); rewrite ?cacheIP_eq;
    repeat case_match; simplify_eq/=; done.
Qed.

Lemma checkResponse_fs conf cacheDir response ip w :
  fs (checkResponse GOOS GOARCH conf cacheDir response ip w).2
  = if echoes response ip
    then (os.WriteFile (fs w) (ipCacheFilepath cacheDir (Hostname conf)) ip).1
    else fs w.
Proof.
  unfold checkResponse, echoes.
  destruct (strings.Split response " ") as [|c0 [|c1 rest]];
    [done..|].
  unfold bind, ret, log_Printf.
  destruct (String.eqb ip c1); rewrite ?cacheIP_eq;
    repeat case_match; simplify_eq/=; done.
Qed.

Lemma checkResponse_sent conf cacheDir response ip w :
  sent (checkResponse GOOS GOARCH conf cacheDir response ip w).2 = sent w.
Proof.
  unfold checkResponse.
  destruct (strings.Split response " ") as [|c0 [|c1 rest]];
    [done..|].
  unfold bind, ret, log_Printf.
  destruct (String.eqb ip c1); rewrite ?cacheIP_eq;
    repeat case_match; simplify_eq/=; done.
Qed.

(** X20: a probe that is answered, but not with status 200 and a readable
    body, yields the sentinel [0.0.0.0] together with an error (never an
    empty IP). *)
Lemma GetExternalIP_failure w resp err :
  http_NewRequest "GET" checkIPURL = None →
  peer (sent w) (probeRequest GOOS GOARCH) = (Some resp, err) →
  (err = None → StatusCode resp = 200%Z → ∃ e, Body resp = ReadAll_err e) →
  ∃ e, (GetExternalIP GOOS GOARCH http_NewRequest peer w).1
       = Return (fallbackIP, Some e).
Proof.
  intros Hreq Hpeer Hfail.
  unfold GetExternalIP, bind, httpClient_Do, ret. rewrite Hreq. simpl.
  fold (probeRequest GOOS GOARCH). rewrite Hpeer.
  destruct err as [e|]; [by eexists|].
  destruct (StatusCode resp =? 200)%Z eqn:E; [|by eexists].
  apply Z.eqb_eq in E. destruct (Hfail eq_refl E) as [e ->]. by eexists.
Qed.

(** X21: a probe that fails in transport leaves no response: reading its
    status code panics, so that [GetExternalIP] does not return. *)
Lemma GetExternalIP_no_response w err :
  http_NewRequest "GET" checkIPURL = None →
  peer (sent w) (probeRequest GOOS GOARCH) = (None, err) →
  (GetExternalIP GOOS GOARCH http_NewRequest peer w).1
  = Panicked nilDereference.
Proof.
  intros Hreq Hpeer.
  unfold GetExternalIP, bind, httpClient_Do, ret, panic. rewrite Hreq. simpl.
  fold (probeRequest GOOS GOARCH). rewrite Hpeer. by destruct err.
Qed.

Lemma UpdateIP_sent conf cacheDir ip w :
  sent (UpdateIP GOOS GOARCH http_NewRequest peer conf cacheDir ip w).2
  = match http_NewRequest "POST" (URL (updateRequest GOOS GOARCH conf ip)) with
    | None => sent w ++ [updateRequest GOOS GOARCH conf ip]
    | Some _ => sent w
    end.
Proof.
  unfold UpdateIP, updateRequest, bind, httpClient_Do, ret, panic; simpl.
  destruct (http_NewRequest _ _); [done|]. simpl.
  destruct (peer _ _) as [[resp|] [err|]]; simpl; try done.
  destruct (Body resp); simpl; [|done].
  by rewrite checkResponse_sent.
Qed.

Lemma UpdateIP_fs conf cacheDir ip w :
  fs (UpdateIP GOOS GOARCH http_NewRequest peer conf cacheDir ip w).2
  = if accepted GOOS GOARCH http_NewRequest peer conf ip w
    then (os.WriteFile (fs w) (ipCacheFilepath cacheDir (Hostname conf)) ip).1
    else fs w.
Proof.
  unfold UpdateIP, accepted, replyBody, updateRequest, bind, httpClient_Do,
    ret, panic; simpl.
  destruct (http_NewRequest _ _); [done|]. simpl.
  destruct (peer _ _) as [[resp|] [err|]]; simpl; try done.
  destruct (Body resp); simpl; [|done].
  by rewrite checkResponse_fs.
Qed.

Lemma UpdateIP_nil conf cacheDir ip w :
  (UpdateIP GOOS GOARCH http_NewRequest peer conf cacheDir ip w).1
  = Return None
  ↔ accepted GOOS GOARCH http_NewRequest peer conf ip w = true.
Proof.
  unfold UpdateIP, accepted, replyBody, updateRequest, bind, httpClient_Do,
    ret, panic; simpl.
  destruct (http_NewRequest _ _); [done|]. simpl.
  destruct (peer _ _) as [[resp|] [err|]]; simpl; try done.
  destruct (Body resp); simpl; [|done].
  by rewrite checkResponse_nil.
Qed.

End HelperFacts.

(** ** The provider's responses *)

Section Responses.

Variables GOOS GOARCH : string.

Implicit Types (conf : Config) (cacheDir ip response : string) (w : World).

(** C1, as the code has it: for every response of exactly two tokens
    [<status> <returned-ip>] whose returned IP is the requested one, the
    outcome is a success (a nil error) whatever the status token is, and
    the cache file is written with the requested IP; the status token
    only selects a log line. *)
Theorem checkResponse_echo_is_success conf cacheDir status ip w :
  token status → token ip →
  let r := checkResponse GOOS GOARCH conf cacheDir
             (status +:+ " " +:+ ip) ip w in
  r.1 = Return None
  ∧ fs r.2
    = (os.WriteFile (fs w) (ipCacheFilepath cacheDir (Hostname conf)) ip).1.
Proof.
  intros Hs Hip r. subst r.
  assert (echoes (status +:+ " " +:+ ip) ip = true) as He
    by (rewrite echoes_two by done; apply String.eqb_refl).
  split.
  - by apply checkResponse_nil.
  - by rewrite checkResponse_fs, He.
Qed.

(** C2, as the code has it: an update attempt writes the cache file of
    its hostname, with the requested IP, exactly when the request is built
    and the reply delivers a body of at least two components whose second
    is the requested IP (whatever the first is), which is also exactly
    when the attempt returns no error; in every other case the file system
    after the attempt is the one before. *)
Theorem UpdateIP_cache_effect http_NewRequest peer conf cacheDir ip w :
  let r := UpdateIP GOOS GOARCH http_NewRequest peer conf cacheDir ip w in
  let echo := accepted GOOS GOARCH http_NewRequest peer conf ip w in
  (r.1 = Return None ↔ echo = true)
  ∧ fs r.2
    = if echo
      then (os.WriteFile (fs w) (ipCacheFilepath cacheDir (Hostname conf)) ip).1
      else fs w.
Proof.
  intros r echo. split.
  - apply UpdateIP_nil.
  - apply UpdateIP_fs.
Qed.

(** C3: for every response of two tokens [<status> <returned-ip>] whose
    returned IP differs from the requested one, the outcome is the
    mismatch error and the file system (hence the cached IP) is
    unchanged, whatever the status token, [good] and [nochg] included. *)
Theorem checkResponse_mismatch conf cacheDir status returned ip w :
  token status → token returned → returned ≠ ip →
  let r := checkResponse GOOS GOARCH conf cacheDir
             (status +:+ " " +:+ returned) ip w in
  r.1 = Return (Some (Errorf
          "returned ip differs from the requested one: %s and %s"
          [returned; ip]))
  ∧ fs r.2 = fs w
  ∧ sent r.2 = sent w.
Proof.
  intros Hs Hr Hne r. subst r.
  assert (String.eqb ip returned = false) as Hb
    by (apply String.eqb_neq; congruence).
  split; [|split].
  - unfold checkResponse. rewrite (Split_two _ _ Hs Hr), Hb.
    unfold bind, ret, log_Printf. by repeat case_match.
  - by rewrite checkResponse_fs, echoes_two, Hb.
  - apply checkResponse_sent.
Qed.

(** C6: for every response without a space the outcome is an error,
    never a success, and the world (cache included) is untouched; each
    of [nohost], [badauth], [notfqdn], [badagent], [abuse] and [911] has
    its own message, and any other response is reported as unhandled,
    with the raw response in the message. *)
Theorem checkResponse_single_token conf cacheDir response ip w :
  token response →
  let r := checkResponse GOOS GOARCH conf cacheDir response ip w in
  r.2 = w
  ∧ ∃ err, r.1 = Return (Some err)
    ∧ (response = "nohost" → Error err =
         "hostname: " +:+ Hostname conf
         +:+ " does not exist, or does not have ddns enabled")
    ∧ (response = "badauth" → Error err =
         "username and password combination: " +:+ Username conf +:+ " / "
         +:+ Password conf +:+ " is not valid for hostname: "
         +:+ Hostname conf)
    ∧ (response = "notfqdn" → Error err =
         "supplied hostname: " +:+ Hostname conf
         +:+ " is not a valid fully-qualified domain name")
    ∧ (response = "badagent" → Error err =
         "user agent: " +:+ userAgent GOOS GOARCH +:+ " is not valid")
    ∧ (response = "abuse" → Error err =
         "access for the hostname: " +:+ Hostname conf
         +:+ " has been blocked due to failure to interpret previous responses correctly")
    ∧ (response = "911" → Error err = "internal server error on google")
    ∧ (response ∉ ["nohost"; "badauth"; "notfqdn"; "badagent"; "abuse"; "911"]
       → Error err = "unhandled response from server: " +:+ response).
Proof.
  intros Htok r. subst r. unfold checkResponse.
  rewrite (Split_no_sep _ _ Htok). unfold ret; simpl.
  split; [done|]. eexists; split; [done|].
  repeat split; intros H.
  1-6: subst response; simpl; rewrite ?append_nil_r; reflexivity.
  assert (∀ t, t ∈ ["nohost"; "badauth"; "notfqdn"; "badagent"; "abuse"; "911"]
               → String.eqb response t = false) as Hf.
  { intros t Ht. apply String.eqb_neq. by intros ->. }
  rewrite !Hf by set_solver. simpl. by rewrite append_nil_r.
Qed.

End Responses.

(** ** The loop over the hostnames *)

Section Reconciler.

Variables GOOS GOARCH : string.
Variable http_NewRequest : string → string → option error.
Variable peer : list Request → Request → option Response * option error.

Implicit Types (conf : Config) (confs : Configs) (w : World).
Implicit Types (cacheDir ip hostname : string) (err : option error).

Local Arguments fmt.Sprintf : simpl never.

Local Abbreviation UpdateIP' := (UpdateIP GOOS GOARCH http_NewRequest peer).
Local Abbreviation main_hostname' :=
  (main_hostname GOOS GOARCH http_NewRequest peer).
Local Abbreviation main_hostnames' :=
  (main_hostnames GOOS GOARCH http_NewRequest peer).
Local Abbreviation accepted' := (accepted GOOS GOARCH http_NewRequest peer).

Lemma ConfigForHostname_Hostname confs hostname conf :
  ConfigForHostname confs hostname = Some conf → Hostname conf = hostname.
Proof.
  unfold ConfigForHostname. induction (Configs_ confs) as [|c cs IH]; [done|].
  simpl. destruct (String.eqb (Hostname c) hostname) eqn:E; [|done].
  intros [= <-]. by apply String.eqb_eq.
Qed.

Lemma accepted_sent conf ip w1 w2 :
  sent w1 = sent w2 → accepted' conf ip w1 = accepted' conf ip w2.
Proof. intros H. unfold accepted', accepted. by rewrite H. Qed.

Lemma LoadCachedIP_loaded conf cacheDir w :
  fs (LoadCachedIP conf cacheDir w).2
  = loaded (fs w) (ipCacheFilepath cacheDir (Hostname conf)).
Proof. apply LoadCachedIP_fs. Qed.

Lemma loaded_cached fs name other :
  cached (loaded fs name) other = cached fs other.
Proof.
  unfold loaded. destruct (os.nodes fs !! name) eqn:Hmiss; [done|].
  destruct (WriteFile_cases fs name fallbackIP other) as [Heq|[-> Heq]].
  - unfold cached, os.ReadFile. by rewrite Heq.
  - by rewrite (cached_regular _ _ _ Heq), cached_missing.
Qed.

Lemma LoadCachedIP_logged conf cacheDir w :
  ∃ lines, logged (LoadCachedIP conf cacheDir w).2 = logged w ++ lines.
Proof.
  unfold LoadCachedIP, bind, os_Stat, os_ReadFile, os.Stat,
    os.ReadFile, log_Printf, ret; simpl.
  destruct (os.nodes (fs w) !! _) as [[data|]|] eqn:H; simpl;
    rewrite ?H, ?cacheIP_eq; simpl.
  - by eexists.
  - exists []. by rewrite app_nil_r.
  - rewrite <- app_assoc. by eexists.
Qed.

Lemma UpdateIP_returns conf cacheDir ip w :
  wellBehaved peer → ∃ err, (UpdateIP' conf cacheDir ip w).1 = Return err.
Proof.
  intros Hwb. unfold UpdateIP, bind, httpClient_Do, ret, panic.
  simpl. destruct (http_NewRequest _ _); [by eexists|]. simpl.
  destruct (peer _ _) as [[resp|] [e|]] eqn:Hp; simpl; try by eexists.
  - destruct (Body resp); simpl; [|by eexists].
    apply checkResponse_returns.
  - by apply Hwb in Hp.
Qed.

(** The requests one pass over a hostname adds. *)
Lemma main_hostname_sent confs cacheDir ip err hostname w :
  sent (main_hostname' confs cacheDir ip err hostname w).2
  = match ConfigForHostname confs hostname with
    | None => sent w
    | Some conf =>
        match cached (fs w) (ipCacheFilepath cacheDir (Hostname conf)) with
        | (savedIP, None) =>
            if String.eqb ip savedIP then sent w
            else match http_NewRequest "POST"
                         (URL (updateRequest GOOS GOARCH conf ip)) with
                 | None => sent w ++ [updateRequest GOOS GOARCH conf ip]
                 | Some _ => sent w
                 end
        | (_, Some _) => sent w
        end
    end.
Proof.
  unfold main_hostname, bind, log_Printf, ret; simpl.
  destruct (ConfigForHostname confs hostname) as [conf|]; [|done].
  match goal with |- context [LoadCachedIP conf cacheDir ?w0] =>
    pose proof (LoadCachedIP_result conf cacheDir w0) as Hr;
    pose proof (LoadCachedIP_sent conf cacheDir w0) as Hs;
    destruct (LoadCachedIP conf cacheDir w0) as [o w1] end.
  simpl in *. subst o.
  destruct (cached _ _) as [savedIP [e|]]; simpl; [done|].
  destruct (String.eqb ip savedIP); simpl; [done|].
  pose proof (UpdateIP_sent GOOS GOARCH http_NewRequest peer
                conf cacheDir ip w1) as Hu.
  destruct (UpdateIP _ _ _ _ _ _ _ w1) as [[[e|]| |] w2]; simpl in *;
    by rewrite Hu, Hs.
Qed.

(** The file system one pass over a hostname leaves. *)
Lemma main_hostname_fs confs cacheDir ip err hostname w :
  fs (main_hostname' confs cacheDir ip err hostname w).2
  = match ConfigForHostname confs hostname with
    | None => fs w
    | Some conf =>
        let name := ipCacheFilepath cacheDir (Hostname conf) in
        match cached (fs w) name with
        | (savedIP, None) =>
            if String.eqb ip savedIP then loaded (fs w) name
            else if accepted' conf ip w
                 then (os.WriteFile (loaded (fs w) name) name ip).1
                 else loaded (fs w) name
        | (_, Some _) => loaded (fs w) name
        end
    end.
Proof.
  unfold main_hostname, bind, log_Printf, ret; simpl.
  destruct (ConfigForHostname confs hostname) as [conf|]; [|done].
  match goal with |- context [LoadCachedIP conf cacheDir ?w0] =>
    pose proof (LoadCachedIP_result conf cacheDir w0) as Hr;
    pose proof (LoadCachedIP_sent conf cacheDir w0) as Hs;
    pose proof (LoadCachedIP_loaded conf cacheDir w0) as Hf;
    destruct (LoadCachedIP conf cacheDir w0) as [o w1] end.
  simpl in *. subst o.
  destruct (cached _ _) as [savedIP [e|]]; simpl; [done|].
  destruct (String.eqb ip savedIP); simpl; [done|].
  pose proof (UpdateIP_fs GOOS GOARCH http_NewRequest peer
                conf cacheDir ip w1) as Hu.
  rewrite (accepted_sent conf ip w w1) by done.
  destruct (UpdateIP _ _ _ _ _ _ _ w1) as [[[e|]| |] w2]; simpl in *;
    by rewrite Hu, Hf.
Qed.

(** A pass over a hostname that is unknown, or whose cached IP is the
    resolved one, sends nothing and changes no cached IP. *)
Lemma main_hostname_settled confs cacheDir ip err hostname w :
  (∀ conf, ConfigForHostname confs hostname = Some conf →
           cached (fs w) (ipCacheFilepath cacheDir (Hostname conf))
           = (ip, None)) →
  ∃ err' w' lines,
    main_hostname' confs cacheDir ip err hostname w = (Return err', w')
    ∧ sent w' = sent w
    ∧ (∀ name, cached (fs w') name = cached (fs w) name)
    ∧ logged w' = logged w ++ lines
    ∧ (∀ conf, ConfigForHostname confs hostname = Some conf →
               err' = None ∧ alreadySet ip conf ∈ lines).
Proof.
  intros Hup.
  unfold main_hostname, bind, log_Printf, ret; simpl.
  destruct (ConfigForHostname confs hostname) as [conf|].
  - specialize (Hup conf eq_refl).
    match goal with |- context [LoadCachedIP conf cacheDir ?w0] =>
      pose proof (LoadCachedIP_result conf cacheDir w0) as Hr;
      pose proof (LoadCachedIP_sent conf cacheDir w0) as Hs;
      pose proof (LoadCachedIP_loaded conf cacheDir w0) as Hf;
      destruct (LoadCachedIP_logged conf cacheDir w0) as [lines Hl];
      destruct (LoadCachedIP conf cacheDir w0) as [o w1] end.
    simpl in *. subst o. rewrite Hup, String.eqb_refl. simpl.
    eexists _, _, _. split; [done|]. simpl.
    split; [done|]. split; [|split].
    + intros name. rewrite Hf. apply loaded_cached.
    + rewrite Hl, <- !app_assoc. done.
    + intros ? [= <-]. split; [done|]. unfold alreadySet. set_solver.
  - eexists _, _, _. split; [done|]. simpl.
    split; [done|]. split; [done|]. split; [|done].
    by rewrite <- app_assoc.
Qed.

Lemma main_hostnames_settled confs cacheDir ip hostnames : ∀ err w,
  (∀ hostname conf, hostname ∈ hostnames →
     ConfigForHostname confs hostname = Some conf →
     cached (fs w) (ipCacheFilepath cacheDir (Hostname conf)) = (ip, None)) →
  ∃ err' w' lines,
    main_hostnames' confs cacheDir ip err hostnames w = (Return err', w')
    ∧ sent w' = sent w
    ∧ (∀ name, cached (fs w') name = cached (fs w) name)
    ∧ logged w' = logged w ++ lines
    ∧ (∀ hostname conf, hostname ∈ hostnames →
         ConfigForHostname confs hostname = Some conf →
         alreadySet ip conf ∈ lines).
Proof.
  induction hostnames as [|h hs IH]; intros err w Hup.
  - exists err, w, []. simpl. rewrite app_nil_r.
    repeat split; try done. intros ?? Hin. by apply elem_of_nil in Hin.
  - destruct (main_hostname_settled confs cacheDir ip err h w)
      as (err1 & w1 & lines1 & E1 & Hs1 & Hc1 & Hl1 & Hr1).
    { intros conf Hconf. apply (Hup h); [apply elem_of_cons; auto|done]. }
    destruct (IH err1 w1) as (err2 & w2 & lines2 & E2 & Hs2 & Hc2 & Hl2 & Hr2).
    { intros h' conf Hin Hconf. rewrite Hc1.
      apply (Hup h'); [apply elem_of_cons; auto|done]. }
    exists err2, w2, (lines1 ++ lines2).
    split. { simpl. unfold bind. by rewrite E1. }
    split; [congruence|].
    split. { intros name. by rewrite Hc2, Hc1. }
    split. { by rewrite Hl2, Hl1, <- app_assoc. }
    intros h' conf Hin Hconf. apply elem_of_cons in Hin as [->|Hin].
    + apply elem_of_app. left. pose proof (Hr1 conf Hconf) as [_ ?]. done.
    + apply elem_of_app. right. by apply (Hr2 h').
Qed.

Lemma checkResponse_logged conf cacheDir response ip w :
  ∃ lines, logged (checkResponse GOOS GOARCH conf cacheDir response ip w).2
           = logged w ++ lines.
Proof.
  unfold checkResponse.
  destruct (strings.Split response " ") as [|c0 [|c1 rest]];
    [by exists []; rewrite app_nil_r..|].
  unfold bind, ret, log_Printf.
  destruct (String.eqb ip c1); rewrite ?cacheIP_eq;
    repeat case_match; simplify_eq/=;
    rewrite <- ?app_assoc; try (by eexists).
  all: exists []; by rewrite app_nil_r.
Qed.

Lemma UpdateIP_logged conf cacheDir ip w :
  ∃ lines, logged (UpdateIP' conf cacheDir ip w).2 = logged w ++ lines.
Proof.
  unfold UpdateIP, bind, httpClient_Do, ret, panic; simpl.
  destruct (http_NewRequest _ _); [by exists []; rewrite app_nil_r|]. simpl.
  destruct (peer _ _) as [[resp|] [e|]]; simpl;
    try (by exists []; rewrite app_nil_r).
  destruct (Body resp); simpl; [|by exists []; rewrite app_nil_r].
  match goal with |- context [checkResponse _ _ _ _ _ _ ?w0] =>
    destruct (checkResponse_logged conf cacheDir data ip w0) as [lines Hl] end.
  by exists lines.
Qed.

(** The loop is a fold: it goes on with the next hostnames whatever error
    the previous ones left in [err]. *)
Lemma main_hostnames_app confs cacheDir ip err hostnames1 hostnames2 w :
  main_hostnames' confs cacheDir ip err (hostnames1 ++ hostnames2) w
  = bind (main_hostnames' confs cacheDir ip err hostnames1)
         (λ err', main_hostnames' confs cacheDir ip err' hostnames2) w.
Proof.
  revert err w. induction hostnames1 as [|h hs IH]; intros err w; [done|].
  simpl. unfold bind in *.
  destruct (main_hostname' confs cacheDir ip err h w) as [[err1| |] w1];
    [apply IH|done..].
Qed.

(** With a peer that keeps the client's contract, the pass over a hostname
    returns: it logs that it takes up the hostname, and no failure exits or
    panics. *)
Lemma main_hostname_returns confs cacheDir ip err hostname w :
  wellBehaved peer →
  ∃ err' w' lines,
    main_hostname' confs cacheDir ip err hostname w = (Return err', w')
    ∧ logged w' = logged w ++ processing hostname :: lines.
Proof.
  intros Hwb. unfold main_hostname, bind, log_Printf, ret; simpl.
  destruct (ConfigForHostname confs hostname) as [conf|].
  - match goal with |- context [LoadCachedIP conf cacheDir ?w0] =>
      pose proof (LoadCachedIP_result conf cacheDir w0) as Hr;
      destruct (LoadCachedIP_logged conf cacheDir w0) as [lines Hl];
      destruct (LoadCachedIP conf cacheDir w0) as [o w1] end.
    simpl in *. subst o.
    destruct (cached _ _) as [savedIP [e|]]; simpl.
    { eexists _, _, _. split; [done|]. by rewrite Hl, <- app_assoc. }
    destruct (String.eqb ip savedIP); simpl.
    { eexists _, _, _. split; [done|]. simpl.
      by rewrite Hl, <- !app_assoc. }
    destruct (UpdateIP_returns conf cacheDir ip w1 Hwb) as [u Hu].
    destruct (UpdateIP_logged conf cacheDir ip w1) as [lines2 Hl2].
    destruct (UpdateIP' conf cacheDir ip w1) as [o w2]. simpl in *.
    subst o. destruct u as [e|]; simpl.
    + eexists _, _, _. split; [done|]. simpl.
      by rewrite Hl2, Hl, <- !app_assoc.
    + eexists _, _, _. split; [done|].
      by rewrite Hl2, Hl, <- !app_assoc.
  - eexists _, _, _. split; [done|]. simpl. by rewrite <- app_assoc.
Qed.

(** X22: with a peer that keeps the client's contract the loop returns,
    whatever fails on the way: it takes up every hostname, in the given
    order (each is logged as being processed), and no failure exits or
    panics. *)
Lemma main_hostnames_returns confs cacheDir ip hostnames : ∀ err w,
  wellBehaved peer →
  ∃ err' w' lines,
    main_hostnames' confs cacheDir ip err hostnames w = (Return err', w')
    ∧ logged w' = logged w ++ lines
    ∧ map processing hostnames `sublist_of` lines.
Proof.
  induction hostnames as [|h hs IH]; intros err w Hwb.
  - exists err, w, []. by rewrite app_nil_r.
  - destruct (main_hostname_returns confs cacheDir ip err h w Hwb)
      as (err1 & w1 & lines1 & E1 & Hl1).
    destruct (IH err1 w1 Hwb) as (err2 & w2 & lines2 & E2 & Hl2 & Hsub).
    exists err2, w2, (processing h :: lines1 ++ lines2).
    split. { simpl. unfold bind. by rewrite E1. }
    split. { rewrite Hl2, Hl1, <- app_assoc. done. }
    simpl. apply sublist_skip. by apply sublist_inserts_l.
Qed.

Lemma WriteFile_keeps_writable fs name data other :
  writable fs other → writable (os.WriteFile fs name data).1 other.
Proof.
  intros [Hd Hn]. split; [by rewrite WriteFile_denied|].
  destruct (WriteFile_cases fs name data other) as [->|[_ ->]]; done.
Qed.

Lemma loaded_keeps_writable fs name other :
  writable fs other → writable (loaded fs name) other.
Proof.
  intros H. unfold loaded. case_match; [done|].
  by apply WriteFile_keeps_writable.
Qed.

Lemma cached_error_directory fs name data e :
  cached fs name = (data, Some e) → os.nodes fs !! name = Some os.Directory.
Proof.
  unfold cached, os.ReadFile.
  by destruct (os.nodes fs !! name) as [[?|]|].
Qed.

(** The file system after a pass over a configured hostname whose cache
    file can be written and whose update, if one is needed, is accepted. *)
Lemma main_hostname_accepted confs cacheDir ip err hostname conf w :
  let name := ipCacheFilepath cacheDir (Hostname conf) in
  ConfigForHostname confs hostname = Some conf →
  writable (fs w) name →
  accepted' conf ip w = true →
  let r := main_hostname' confs cacheDir ip err hostname w in
  r.1 = Return None
  ∧ cached (fs r.2) name = (ip, None)
  ∧ (∀ other, writable (fs w) other → writable (fs r.2) other)
  ∧ (∀ other, cached (fs r.2) other = cached (fs w) other
              ∨ cached (fs r.2) other = (ip, None)).
Proof.
  intros name Hconf Hw Hacc r. subst r. split.
  { unfold main_hostname, bind, log_Printf, ret; simpl. rewrite Hconf.
    match goal with |- context [LoadCachedIP conf cacheDir ?w0] =>
      pose proof (LoadCachedIP_result conf cacheDir w0) as Hr;
      pose proof (LoadCachedIP_sent conf cacheDir w0) as Hs;
      destruct (LoadCachedIP conf cacheDir w0) as [o w1] end.
    simpl in *. subst o. fold name.
    destruct (cached (fs w) name) as [savedIP [e|]] eqn:Hc; simpl.
    { apply cached_error_directory in Hc. by destruct Hw. }
    destruct (String.eqb ip savedIP); simpl; [done|].
    rewrite (accepted_sent conf ip w w1) in Hacc by done.
    apply (UpdateIP_nil _ _ _ _ conf cacheDir ip w1) in Hacc.
    destruct (UpdateIP' conf cacheDir ip w1) as [o w2]. simpl in *.
    by subst o. }
  rewrite main_hostname_fs, Hconf. simpl. fold name. rewrite Hacc.
  destruct (cached (fs w) name) as [savedIP [e|]] eqn:Hc.
  { apply cached_error_directory in Hc. by destruct Hw. }
  destruct (String.eqb ip savedIP) eqn:E.
  - apply String.eqb_eq in E as <-. split; [|split].
    + by rewrite loaded_cached.
    + intros other. apply loaded_keeps_writable.
    + intros other. left. apply loaded_cached.
  - split; [|split].
    + apply cached_regular, WriteFile_lookup. by apply loaded_keeps_writable.
    + intros other Ho. by apply WriteFile_keeps_writable, loaded_keeps_writable.
    + intros other.
      destruct (WriteFile_cases (loaded (fs w) name) name ip other)
        as [Heq|[-> Heq]].
      * left. rewrite <- (loaded_cached (fs w) name other).
        unfold cached, os.ReadFile. by rewrite Heq.
      * right. by apply cached_regular.
Qed.

Lemma main_hostnames_accepted confs cacheDir ip hostnames : ∀ err w,
  (∀ hostname conf w', hostname ∈ hostnames →
     ConfigForHostname confs hostname = Some conf →
     accepted' conf ip w' = true) →
  (∀ hostname conf, hostname ∈ hostnames →
     ConfigForHostname confs hostname = Some conf →
     writable (fs w) (ipCacheFilepath cacheDir (Hostname conf))) →
  ∃ err' w',
    main_hostnames' confs cacheDir ip err hostnames w = (Return err', w')
    ∧ (∀ hostname conf, hostname ∈ hostnames →
         ConfigForHostname confs hostname = Some conf →
         cached (fs w') (ipCacheFilepath cacheDir (Hostname conf))
         = (ip, None))
    ∧ (∀ other, writable (fs w) other → writable (fs w') other)
    ∧ (∀ other, cached (fs w') other = cached (fs w) other
                ∨ cached (fs w') other = (ip, None)).
Proof.
  induction hostnames as [|h hs IH]; intros err w Hacc Hw.
  - exists err, w. split; [done|]. split; [|by auto].
    intros ?? Hin. by apply elem_of_nil in Hin.
  - assert (∃ err1 w1,
        main_hostname' confs cacheDir ip err h w = (Return err1, w1)
        ∧ (∀ conf, ConfigForHostname confs h = Some conf →
             cached (fs w1) (ipCacheFilepath cacheDir (Hostname conf))
             = (ip, None))
        ∧ (∀ other, writable (fs w) other → writable (fs w1) other)
        ∧ (∀ other, cached (fs w1) other = cached (fs w) other
                    ∨ cached (fs w1) other = (ip, None)))
      as (err1 & w1 & E1 & Hup1 & Hw1 & Hc1).
    { destruct (ConfigForHostname confs h) as [conf|] eqn:Hconf.
      - destruct (main_hostname_accepted confs cacheDir ip err h conf w)
          as (Hr & Hup & Hwr & Hc); [done| |by apply (Hacc h); [left|]|].
        { apply (Hw h); [left|done]. }
        destruct (main_hostname' confs cacheDir ip err h w) as [o w1].
        simpl in *. subst o. exists None, w1.
        split; [done|]. split; [|by auto]. by intros ? [= <-].
      - destruct (main_hostname_settled confs cacheDir ip err h w)
          as (err1 & w1 & lines & E & _ & Hc & _).
        { intros conf. by rewrite Hconf. }
        exists err1, w1. split; [done|]. split; [|split; [|by auto]].
        + by intros conf.
        + intros other Ho.
          pose proof (main_hostname_fs confs cacheDir ip err h w) as Hfs.
          rewrite Hconf, E in Hfs. simpl in Hfs. by rewrite Hfs. }
    destruct (IH err1 w1) as (err2 & w2 & E2 & Hup2 & Hw2 & Hc2).
    { intros h' conf w' Hin. apply (Hacc h'). by right. }
    { intros h' conf Hin Hconf. apply Hw1, (Hw h'); [by right|done]. }
    exists err2, w2.
    split. { simpl. unfold bind. by rewrite E1. }
    split; [|split].
    + intros h' conf Hin Hconf. apply elem_of_cons in Hin as [->|Hin].
      * destruct (Hc2 (ipCacheFilepath cacheDir (Hostname conf)))
          as [-> | ->]; [|done]. by apply Hup1.
      * by apply (Hup2 h').
    + intros other Ho. by apply Hw2, Hw1.
    + intros other. destruct (Hc2 other) as [-> | ->]; [|by right]. apply Hc1.
Qed.

(** X23: idempotence after a pass that updates: when every update reply
    echoes the resolved IP and the cache files can be written, a second
    run with the same IP sends no update request. *)
Theorem main_hostnames_second_run confs cacheDir ip hostnames err err2 w :
  (∀ hostname conf w', hostname ∈ hostnames →
     ConfigForHostname confs hostname = Some conf →
     accepted' conf ip w' = true) →
  (∀ hostname conf, hostname ∈ hostnames →
     ConfigForHostname confs hostname = Some conf →
     writable (fs w) (ipCacheFilepath cacheDir (Hostname conf))) →
  let first := main_hostnames' confs cacheDir ip err hostnames w in
  let second := main_hostnames' confs cacheDir ip err2 hostnames first.2 in
  sent second.2 = sent first.2.
Proof.
  intros Hacc Hw first second.
  destruct (main_hostnames_accepted confs cacheDir ip hostnames err w Hacc Hw)
    as (err1 & w1 & E1 & Hup & _).
  destruct (main_hostnames_settled confs cacheDir ip hostnames err2 w1 Hup)
    as (err3 & w3 & lines & E3 & Hs & _).
  subst second first. rewrite E1. simpl. by rewrite E3.
Qed.

(** When, moreover, the cache files exist, the loop leaves the file system
    as it is. *)
Lemma main_hostnames_settled_fs confs cacheDir ip hostnames : ∀ err w,
  (∀ hostname conf, hostname ∈ hostnames →
     ConfigForHostname confs hostname = Some conf →
     cached (fs w) (ipCacheFilepath cacheDir (Hostname conf)) = (ip, None)
     ∧ is_Some (os.nodes (fs w) !! ipCacheFilepath cacheDir (Hostname conf))) →
  fs (main_hostnames' confs cacheDir ip err hostnames w).2 = fs w.
Proof.
  induction hostnames as [|h hs IH]; intros err w Hup; [done|].
  assert (fs (main_hostname' confs cacheDir ip err h w).2 = fs w) as Hfs.
  { rewrite main_hostname_fs.
    destruct (ConfigForHostname confs h) as [conf|] eqn:Hconf; [|done].
    destruct (Hup h conf) as [Hc [node Hnode]]; [by left|done|].
    cbv zeta. rewrite Hc, String.eqb_refl. unfold loaded. by rewrite Hnode. }
  simpl. unfold bind.
  destruct (main_hostname' confs cacheDir ip err h w) as [[err1| |] w1];
    simpl in *; [|done..].
  rewrite IH; [done|]. intros h' conf Hin Hconf. rewrite Hfs.
  apply (Hup h'); [by right|done].
Qed.

(** A run in which every requested, configured hostname loads the
    resolved IP sends no update request, logs each such hostname as
    already set, and leaves every cached IP as it was (the file system
    itself when the cache files exist); run again on the world it leaves,
    it again sends no update request. *)
Lemma main_hostnames_all_settled confs cacheDir ip hostnames err err2 w :
  (∀ hostname conf, hostname ∈ hostnames →
     ConfigForHostname confs hostname = Some conf →
     (LoadCachedIP conf cacheDir w).1 = Return (ip, None)) →
  let first := main_hostnames GOOS GOARCH http_NewRequest peer
                 confs cacheDir ip err hostnames w in
  let second := main_hostnames GOOS GOARCH http_NewRequest peer
                  confs cacheDir ip err2 hostnames first.2 in
  sent first.2 = sent w
  ∧ (∀ hostname conf, hostname ∈ hostnames →
       ConfigForHostname confs hostname = Some conf →
       alreadySet ip conf ∈ logged first.2)
  ∧ (∀ conf, (LoadCachedIP conf cacheDir first.2).1
             = (LoadCachedIP conf cacheDir w).1)
  ∧ ((∀ hostname conf, hostname ∈ hostnames →
        ConfigForHostname confs hostname = Some conf →
        is_Some (os.nodes (fs w) !! ipCacheFilepath cacheDir (Hostname conf))) →
     fs first.2 = fs w)
  ∧ sent second.2 = sent first.2.
Proof.
  intros Hup first second.
  assert (∀ hostname conf, hostname ∈ hostnames →
     ConfigForHostname confs hostname = Some conf →
     cached (fs w) (ipCacheFilepath cacheDir (Hostname conf)) = (ip, None))
    as Hup'.
  { intros h conf Hin Hconf. specialize (Hup h conf Hin Hconf).
    rewrite LoadCachedIP_result in Hup. congruence. }
  assert ((∀ hostname conf, hostname ∈ hostnames →
        ConfigForHostname confs hostname = Some conf →
        is_Some (os.nodes (fs w) !! ipCacheFilepath cacheDir (Hostname conf))) →
     fs first.2 = fs w) as Hfs.
  { intros Hex. apply main_hostnames_settled_fs.
    intros h conf Hin Hconf. split; [by apply (Hup' h)|by apply (Hex h)]. }
  destruct (main_hostnames_settled confs cacheDir ip hostnames err w Hup')
    as (err1 & w1 & lines1 & E1 & Hs1 & Hc1 & Hl1 & Hr1).
  destruct (main_hostnames_settled confs cacheDir ip hostnames err2 w1)
    as (err3 & w3 & lines3 & E3 & Hs3 & _).
  { intros h conf Hin Hconf. rewrite Hc1. by apply (Hup' h). }
  subst second first. rewrite E1 in *. simpl in *. rewrite E3. simpl.
  split; [done|]. split; [|split; [|by split]].
  - intros h conf Hin Hconf. rewrite Hl1. apply elem_of_app. right.
    by apply (Hr1 h).
  - intros conf. by rewrite !LoadCachedIP_result, Hc1.
Qed.





(** C7, as the code has it: for a hostname with no cache file, a load
    attempts to write the sentinel [0.0.0.0] to the cache file, discards
    the error of that write, and returns the sentinel with no error; when
    the write is not refused the cache file then holds the sentinel; and
    the pass over such a hostname, for a resolved IP other than the
    sentinel, makes an update attempt (the request is sent once it is
    built). *)
Theorem LoadCachedIP_no_record confs cacheDir ip err hostname conf w :
  let name := ipCacheFilepath cacheDir (Hostname conf) in
  os.nodes (fs w) !! name = None →
  ConfigForHostname confs hostname = Some conf →
  ip ≠ fallbackIP →
  http_NewRequest "POST" (URL (updateRequest GOOS GOARCH conf ip)) = None →
  (LoadCachedIP conf cacheDir w).1 = Return (fallbackIP, None)
  ∧ fs (LoadCachedIP conf cacheDir w).2
    = (os.WriteFile (fs w) name fallbackIP).1
  ∧ (name ∉ os.denied (fs w) →
     os.nodes (fs (LoadCachedIP conf cacheDir w).2) !! name
     = Some (os.RegularFile fallbackIP))
  ∧ sent (main_hostname GOOS GOARCH http_NewRequest peer
            confs cacheDir ip err hostname w).2
    = sent w ++ [updateRequest GOOS GOARCH conf ip].
Proof.
  intros name Hmiss Hconf Hip Hreq.
  rewrite LoadCachedIP_result, LoadCachedIP_loaded.
  unfold loaded. fold name. rewrite (cached_missing _ _ Hmiss), Hmiss.
  split; [done|]. split; [done|]. split.
  - intros Hd. apply WriteFile_lookup. split; [done|]. by rewrite Hmiss.
  - rewrite main_hostname_sent, Hconf. fold name.
    rewrite (cached_missing _ _ Hmiss), Hreq.
    apply String.eqb_neq in Hip. by rewrite Hip.
Qed.

(** C9, as the code has it: after an update attempt for the IP [x] that
    returns no error, a load of that hostname returns exactly [x],
    provided the write of the cache file is not refused (the update
    discards the error of that write). *)
Theorem LoadCachedIP_after_UpdateIP conf cacheDir x w :
  (UpdateIP GOOS GOARCH http_NewRequest peer conf cacheDir x w).1
  = Return None →
  writable (fs w) (ipCacheFilepath cacheDir (Hostname conf)) →
  (LoadCachedIP conf cacheDir
     (UpdateIP GOOS GOARCH http_NewRequest peer conf cacheDir x w).2).1
  = Return (x, None).
Proof.
  intros Hnil Hw. apply UpdateIP_nil in Hnil.
  rewrite LoadCachedIP_result, UpdateIP_fs, Hnil.
  f_equal. apply cached_regular. by apply WriteFile_lookup.
Qed.

End Reconciler.

(** ** The cache file of a hostname *)

Section CacheFiles.

Lemma Join_snoc elems x sep :
  strings.Join (elems ++ [x]) sep
  = foldr (λ e acc, e +:+ sep +:+ acc) "" elems +:+ x.
Proof.
  induction elems as [|e es IH]; [done|].
  change ((e :: es) ++ [x]) with (e :: (es ++ [x])).
  assert (strings.Join (e :: (es ++ [x])) sep
          = e +:+ sep +:+ strings.Join (es ++ [x]) sep) as ->
    by (by destruct es).
  rewrite IH. simpl. by rewrite !append_assoc.
Qed.

Lemma cleanStep_real rooted out name :
  realElement name → filepath.cleanStep rooted out name = name :: out.
Proof. intros (_ & H1 & H2 & H3). unfold filepath.cleanStep. by rewrite H1, H2, H3. Qed.

Lemma isRooted_append a b :
  a ≠ "" → filepath.isRooted (a +:+ b) = filepath.isRooted a.
Proof. by destruct a. Qed.

Lemma realElement_not_rooted name :
  realElement name → filepath.isRooted name = false.
Proof.
  intros (Hsep & _). destruct name as [|c name]; [done|].
  unfold separatorFree in Hsep. simpl in *.
  by apply orb_false_iff in Hsep as [-> _].
Qed.

(** [Clean] keeps a real last element as it is, after a prefix that the
    directory alone decides. *)
Lemma Clean_last a name :
  a ≠ "" → realElement name →
  ∃ prefix, (∀ name', realElement name' →
               filepath.Clean (a +:+ "/" +:+ name') = prefix +:+ name')
            ∧ filepath.Clean (a +:+ "/" +:+ name) = prefix +:+ name.
Proof.
  intros Ha Hreal.
  set (out := foldl (filepath.cleanStep (filepath.isRooted a)) []
                (strings.Split a filepath.Separator)).
  set (body := foldr (λ e acc, e +:+ "/" +:+ acc) "" (rev out)).
  exists (if filepath.isRooted a then String "/" body else body).
  assert (∀ name', realElement name' →
            filepath.Clean (a +:+ "/" +:+ name')
            = (if filepath.isRooted a then String "/" body else body)
              +:+ name') as H; [|by auto].
  intros n Hn. unfold filepath.Clean.
  rewrite isRooted_append by done.
  change ("/" +:+ n) with (String filepath.Separator n).
  rewrite Split_app, (Split_no_sep n) by apply Hn.
  rewrite foldl_app. simpl. fold out.
  rewrite cleanStep_real by done. simpl. rewrite Join_snoc. fold body.
  destruct (filepath.isRooted a); [done|].
  destruct (String.eqb (body +:+ n) "") eqn:E; [|done].
  apply String.eqb_eq, append_eq_nil in E. subst n.
  by destruct Hn as (_ & ? & _).
Qed.

Lemma Join_real_inj a name1 name2 :
  realElement name1 → realElement name2 →
  filepath.Join a name1 = filepath.Join a name2 → name1 = name2.
Proof.
  intros H1 H2. unfold filepath.Join.
  destruct (String.eqb a "") eqn:Ha.
  - pose proof H1 as (Hs1 & E1 & _). pose proof H2 as (Hs2 & E2 & _).
    rewrite E1, E2. unfold filepath.Clean.
    rewrite !realElement_not_rooted by done.
    rewrite !Split_no_sep by done. simpl.
    rewrite !cleanStep_real by done. simpl. by rewrite E1, E2.
  - apply String.eqb_neq in Ha.
    destruct (Clean_last a name1 Ha H1) as (prefix & Hall & _).
    rewrite (Hall name1 H1), (Hall name2 H2). apply append_inj_l.
Qed.

Lemma cacheFile_real hostname :
  separatorFree hostname →
  realElement (ipCacheFilename +:+ "." +:+ hostname).
Proof. intros H. by repeat split. Qed.

Lemma ipCacheFilepath_inj cacheDir hostname1 hostname2 :
  separatorFree hostname1 → separatorFree hostname2 →
  ipCacheFilepath cacheDir hostname1 = ipCacheFilepath cacheDir hostname2 →
  hostname1 = hostname2.
Proof.
  intros H1 H2 Heq. unfold ipCacheFilepath in Heq.
  apply Join_real_inj in Heq; [|by apply cacheFile_real..].
  by do 2 apply append_inj_l in Heq.
Qed.

(** C10: for two distinct hostnames without a path separator the cache
    files differ, and every cache write for the one (a save by itself or
    at the end of an update, or the sentinel written by a load) leaves
    the cache file of the other as it was. *)
Theorem cache_writes_are_per_hostname
    GOOS GOARCH http_NewRequest peer conf other cacheDir ip w :
  separatorFree (Hostname conf) → separatorFree (Hostname other) →
  Hostname conf ≠ Hostname other →
  let name := ipCacheFilepath cacheDir (Hostname other) in
  ipCacheFilepath cacheDir (Hostname conf) ≠ name
  ∧ os.nodes (fs (cacheIP conf cacheDir ip w).2) !! name
    = os.nodes (fs w) !! name
  ∧ os.nodes (fs (LoadCachedIP conf cacheDir w).2) !! name
    = os.nodes (fs w) !! name
  ∧ os.nodes (fs (UpdateIP GOOS GOARCH http_NewRequest peer
                    conf cacheDir ip w).2) !! name
    = os.nodes (fs w) !! name.
Proof.
  intros H1 H2 Hne name.
  assert (ipCacheFilepath cacheDir (Hostname conf) ≠ name) as Hpath.
  { intros Heq. by apply Hne, (ipCacheFilepath_inj cacheDir). }
  split; [done|]. split; [|split].
  - rewrite cacheIP_eq. simpl. by apply WriteFile_other.
  - rewrite LoadCachedIP_fs. case_match; [done|]. by apply WriteFile_other.
  - rewrite UpdateIP_fs. case_match; [|done]. by apply WriteFile_other.
Qed.

End CacheFiles.

(** ** The claims at concrete inputs *)

Section Scenarios.

Import Sample.

Lemma checkResponse_echo_is_success_witness :
  let r := checkResponse GOOS GOARCH confA cacheDir
             "nochg 1.2.3.4" "1.2.3.4" (world [] []) in
  r.1 = Return None
  ∧ fs r.2 = (os.WriteFile (fs (world [] [])) cacheA "1.2.3.4").1.
Proof.
  apply (checkResponse_echo_is_success GOOS GOARCH confA cacheDir
           "nochg" "1.2.3.4" (world [] [])); reflexivity.
Defined.

(** C1 fails as stated: the response [foo 1.2.3.4] to a request for
    [1.2.3.4] has two tokens and a first token other than [good] and
    [nochg], yet the outcome is a success and the cache file is
    written. *)
Lemma checkResponse_unknown_status_succeeds :
  let w := world [] [] in
  let r := checkResponse GOOS GOARCH confA cacheDir
             "foo 1.2.3.4" "1.2.3.4" w in
  strings.Split "foo 1.2.3.4" " " = ["foo"; "1.2.3.4"]
  ∧ "foo" ≠ "good" ∧ "foo" ≠ "nochg"
  ∧ r.1 = Return None
  ∧ os.nodes (fs w) !! cacheA = None
  ∧ os.nodes (fs r.2) !! cacheA = Some (os.RegularFile "1.2.3.4").
Proof. by vm_compute. Qed.

(** C2 fails as stated: the reply [conflict 1.2.3.4] has no success
    status, yet the update attempt for [1.2.3.4] replaces the cached
    [5.6.7.8]. *)
Lemma UpdateIP_unknown_status_writes_cache :
  let w := world [(cacheA, os.RegularFile "5.6.7.8")] [] in
  let r := UpdateIP GOOS GOARCH newRequest (peer 200 "" "conflict 1.2.3.4")
             confA cacheDir "1.2.3.4" w in
  strings.Split "conflict 1.2.3.4" " " = ["conflict"; "1.2.3.4"]
  ∧ "conflict" ≠ "good" ∧ "conflict" ≠ "nochg"
  ∧ os.nodes (fs w) !! cacheA = Some (os.RegularFile "5.6.7.8")
  ∧ os.nodes (fs r.2) !! cacheA = Some (os.RegularFile "1.2.3.4").
Proof. by vm_compute. Qed.

Lemma checkResponse_mismatch_witness :
  let r := checkResponse GOOS GOARCH confA cacheDir
             "good 5.6.7.8" "1.2.3.4"
             (world [(cacheA, os.RegularFile "1.1.1.1")] []) in
  r.1 = Return (Some (Errorf
          "returned ip differs from the requested one: %s and %s"
          ["5.6.7.8"; "1.2.3.4"]))
  ∧ fs r.2 = fs (world [(cacheA, os.RegularFile "1.1.1.1")] [])
  ∧ sent r.2 = sent (world [(cacheA, os.RegularFile "1.1.1.1")] []).
Proof.
  apply (checkResponse_mismatch GOOS GOARCH confA cacheDir
           "good" "5.6.7.8" "1.2.3.4"); [reflexivity..|discriminate].
Defined.

Lemma checkResponse_single_token_witness :
  let w := world [(cacheA, os.RegularFile "1.1.1.1")] [] in
  let r := checkResponse GOOS GOARCH confA cacheDir "badauth" "1.2.3.4" w in
  r.2 = w
  ∧ ∃ err, r.1 = Return (Some err)
    ∧ ("badauth" = "badauth" → Error err =
         "username and password combination: u / p is not valid for hostname: a.example.com").
Proof.
  destruct (checkResponse_single_token GOOS GOARCH confA cacheDir
              "badauth" "1.2.3.4"
              (world [(cacheA, os.RegularFile "1.1.1.1")] []))
    as (Hw & err & Herr & _ & Hbadauth & _); [reflexivity|].
  split; [exact Hw|]. exists err. split; [exact Herr|exact Hbadauth].
Defined.

(** C7 fails as stated: when the write of the cache file is refused, a
    load of a hostname without a cache file returns the sentinel with no
    error, and no cache value has been written. *)
Lemma LoadCachedIP_refused_write :
  let w := world [] [cacheA] in
  let r := LoadCachedIP confA cacheDir w in
  os.nodes (fs w) !! cacheA = None
  ∧ r.1 = Return (fallbackIP, None)
  ∧ os.nodes (fs r.2) !! cacheA = None.
Proof. by vm_compute. Qed.

Lemma LoadCachedIP_no_record_witness :
  let w := world [] [] in
  (LoadCachedIP confA cacheDir w).1 = Return (fallbackIP, None)
  ∧ fs (LoadCachedIP confA cacheDir w).2
    = (os.WriteFile (fs w) cacheA fallbackIP).1
  ∧ (cacheA ∉ os.denied (fs w) →
     os.nodes (fs (LoadCachedIP confA cacheDir w).2) !! cacheA
     = Some (os.RegularFile fallbackIP))
  ∧ sent (main_hostname GOOS GOARCH newRequest (peer 200 "" "good 9.9.9.9")
            confs cacheDir "9.9.9.9" None "a.example.com" w).2
    = sent w ++ [updateRequest GOOS GOARCH confA "9.9.9.9"].
Proof.
  apply (LoadCachedIP_no_record GOOS GOARCH newRequest
           (peer 200 "" "good 9.9.9.9") confs cacheDir "9.9.9.9" None
           "a.example.com" confA (world [] []));
    [by vm_compute|reflexivity|discriminate|reflexivity].
Defined.

(** C9 fails as stated: the cache file is read-only, the update for
    [1.2.3.4] is answered [good 1.2.3.4] and returns no error, and the
    next load returns the old [5.6.7.8]. *)
Lemma UpdateIP_success_without_save :
  let w := world [(cacheA, os.RegularFile "5.6.7.8")] [cacheA] in
  let r := UpdateIP GOOS GOARCH newRequest (peer 200 "" "good 1.2.3.4")
             confA cacheDir "1.2.3.4" w in
  r.1 = Return None
  ∧ (LoadCachedIP confA cacheDir r.2).1 = Return ("5.6.7.8", None).
Proof. by vm_compute. Qed.

Lemma LoadCachedIP_after_UpdateIP_witness :
  let w := world [(cacheA, os.RegularFile "5.6.7.8")] [] in
  (LoadCachedIP confA cacheDir
     (UpdateIP GOOS GOARCH newRequest (peer 200 "" "good 1.2.3.4")
        confA cacheDir "1.2.3.4" w).2).1
  = Return ("1.2.3.4", None).
Proof.
  apply (LoadCachedIP_after_UpdateIP GOOS GOARCH newRequest
           (peer 200 "" "good 1.2.3.4") confA cacheDir "1.2.3.4"
           (world [(cacheA, os.RegularFile "5.6.7.8")] []));
    [by vm_compute|].
  split; [by vm_compute|by vm_compute].
Defined.

Lemma main_hostnames_all_settled_witness :
  let hostnames := ["a.example.com"; "c.example.com"; "b.example.com"] in
  let w := world [(cacheA, os.RegularFile "9.9.9.9");
                  (cacheB, os.RegularFile "9.9.9.9")] [] in
  let first := main_hostnames GOOS GOARCH newRequest
                 (peer 200 "" "good 9.9.9.9")
                 confs cacheDir "9.9.9.9" None hostnames w in
  let second := main_hostnames GOOS GOARCH newRequest
                  (peer 200 "" "good 9.9.9.9")
                  confs cacheDir "9.9.9.9" None hostnames first.2 in
  sent first.2 = sent w
  ∧ (∀ hostname conf, hostname ∈ hostnames →
       ConfigForHostname confs hostname = Some conf →
       alreadySet "9.9.9.9" conf ∈ logged first.2)
  ∧ (∀ conf, (LoadCachedIP conf cacheDir first.2).1
             = (LoadCachedIP conf cacheDir w).1)
  ∧ ((∀ hostname conf, hostname ∈ hostnames →
        ConfigForHostname confs hostname = Some conf →
        is_Some (os.nodes (fs w) !! ipCacheFilepath cacheDir (Hostname conf))) →
     fs first.2 = fs w)
  ∧ sent second.2 = sent first.2.
Proof.
  apply (main_hostnames_all_settled GOOS GOARCH newRequest
           (peer 200 "" "good 9.9.9.9") confs cacheDir "9.9.9.9"
           ["a.example.com"; "c.example.com"; "b.example.com"] None None).
  intros hostname conf Hin Hconf.
  repeat (apply elem_of_cons in Hin as [->|Hin]);
    [..|by apply elem_of_nil in Hin];
    vm_compute in Hconf; simplify_eq; by vm_compute.
Defined.



(** The scenario of one configured hostname with an empty cache, the
    resolved IP [9.9.9.9] and the reply [good 9.9.9.9]: the first run sends
    one update and leaves [9.9.9.9] in the cache; the second run sends
    nothing and finds the hostname up to date. *)
Lemma main_twice :
  let run := main GOOS GOARCH executable decode newRequest
               (peer 200 "" "good 9.9.9.9")
               ["-c"; confFile; "-i"; "9.9.9.9"; "a.example.com"] in
  let first := run (world [] []) in
  let second := run first.2 in
  first.1 = Return tt
  ∧ sent first.2 = [updateRequest GOOS GOARCH confA "9.9.9.9"]
  ∧ os.nodes (fs first.2) !! cacheA = Some (os.RegularFile "9.9.9.9")
  ∧ second.1 = Return tt
  ∧ sent second.2 = sent first.2
  ∧ alreadySet "9.9.9.9" confA ∈ logged second.2.
Proof.
  intros run first second. repeat split; try by vm_compute.
  apply (bool_decide_unpack _). by vm_compute.
Qed.

Lemma cache_writes_are_per_hostname_witness :
  let w := world [(cacheB, os.RegularFile "5.6.7.8")] [] in
  ipCacheFilepath cacheDir (Hostname confA) ≠ cacheB
  ∧ os.nodes (fs (cacheIP confA cacheDir "1.2.3.4" w).2) !! cacheB
    = os.nodes (fs w) !! cacheB
  ∧ os.nodes (fs (LoadCachedIP confA cacheDir w).2) !! cacheB
    = os.nodes (fs w) !! cacheB
  ∧ os.nodes (fs (UpdateIP GOOS GOARCH newRequest
                    (peer 200 "" "good 1.2.3.4")
                    confA cacheDir "1.2.3.4" w).2) !! cacheB
    = os.nodes (fs w) !! cacheB.
Proof.
  apply (cache_writes_are_per_hostname GOOS GOARCH newRequest
           (peer 200 "" "good 1.2.3.4") confA confB cacheDir "1.2.3.4"
           (world [(cacheB, os.RegularFile "5.6.7.8")] []));
    [reflexivity|reflexivity|discriminate].
Defined.

(** C4 fails on the code.  No IP is given on the command line or in the
    configuration and the probe is answered with HTTP 500:
    [GetExternalIP] returns the sentinel with its error, [main] takes
    the sentinel for the resolved IP, and the update request for
    [a.example.com], whose cache holds [1.2.3.4], is sent with
    [myip=0.0.0.0]; the cache is overwritten with the sentinel and the
    process ends normally. *)
Lemma main_probe_failure_publishes_sentinel :
  let w := world [(cacheA, os.RegularFile "1.2.3.4")] [] in
  let r := main GOOS GOARCH executable decode newRequest
             (peer 500 "" "good 0.0.0.0") ["-c"; confFile] w in
  (GetExternalIP GOOS GOARCH newRequest (peer 500 "" "good 0.0.0.0") w).1
  = Return (fallbackIP,
            Some (errorString
              "failed to fetch external ip: %!s(<nil>) (http 500)"))
  ∧ r.1 = Return tt
  ∧ sent r.2
    = [ {| Method := "GET"; URL := checkIPURL;
           UserAgent := userAgent GOOS GOARCH |};
        {| Method := "POST";
           URL := "https://u:p@domains.google.com/nic/update?hostname=a.example.com&myip=0.0.0.0";
           UserAgent := userAgent GOOS GOARCH |} ]
  ∧ os.nodes (fs r.2) !! cacheA = Some (os.RegularFile "0.0.0.0")
  ∧ last (logged r.2) = Some "update finished".
Proof. by vm_compute. Qed.

(** When the probe fails in transport the process panics in
    [GetExternalIP], before any update request. *)
Lemma main_probe_unreachable_panics :
  let w := world [(cacheA, os.RegularFile "1.2.3.4")] [] in
  let r := main GOOS GOARCH executable decode newRequest peerUnreachable
             ["-c"; confFile] w in
  r.1 = Panicked nilDereference
  ∧ sent r.2 = [probeRequest GOOS GOARCH].
Proof. by vm_compute. Qed.

(** C5 fails on the code.  The update of [a.example.com] is rejected
    ([badauth]) and [b.example.com], processed next, is up to date: the
    load of the second hostname assigns nil to [main]'s [err], so the
    process ends normally although an error occurred; with the two
    hostnames in the other order it exits with status 1. *)
Lemma main_later_hostname_masks_error :
  let w := world [(cacheA, os.RegularFile "1.2.3.4");
                  (cacheB, os.RegularFile "9.9.9.9")] [] in
  let run hostnames :=
    main GOOS GOARCH executable decode newRequest (peerRejectingA "9.9.9.9")
         (["-c"; confFile; "-i"; "9.9.9.9"] ++ hostnames) w in
  (UpdateIP GOOS GOARCH newRequest (peerRejectingA "9.9.9.9")
     confA cacheDir "9.9.9.9" w).1
  = Return (Some (errorString
      "username and password combination: u / p is not valid for hostname: a.example.com"))
  ∧ (run ["a.example.com"; "b.example.com"]).1 = Return tt
  ∧ last (logged (run ["a.example.com"; "b.example.com"]).2)
    = Some "update finished"
  ∧ (run ["b.example.com"; "a.example.com"]).1 = Exited 1.
Proof. by vm_compute. Qed.

End Scenarios.

(** ** The command line *)

Section CommandLine.

Variables GOOS GOARCH : string.
Variable os_Executable : string * option error.
Variable json_Unmarshal : string → Configs + error.
Variable http_NewRequest : string → string → option error.
Variable peer : list Request → Request → option Response * option error.

Local Abbreviation main' :=
  (main GOOS GOARCH os_Executable json_Unmarshal http_NewRequest peer).

Implicit Types (v : Flags) (arg : string) (args : list string) (w : World).

Lemma ExitWithHelpMessage_eq {A} w :
  @ExitWithHelpMessage A w = (Exited 0, helped w).
Proof. reflexivity. Qed.

(** One argument either updates the variables, leaving the world alone,
    or prints the help and exits with status 0. *)
Lemma main_arg_cases v arg w :
  (∃ v', main_arg v arg w = (Return v', w))
  ∨ main_arg v arg w = (Exited 0, helped w).
Proof.
  unfold main_arg.
  repeat case_match; try (by right); left; by eexists.
Qed.

Lemma main_args_cases args : ∀ v w,
  (∃ v', main_args v args w = (Return v', w))
  ∨ main_args v args w = (Exited 0, helped w).
Proof.
  induction args as [|arg rest IH]; intros v w; [left; by eexists|].
  simpl. unfold bind.
  destruct (main_arg_cases v arg w) as [[v' ->]| ->]; [apply IH|by right].
Qed.

Lemma main_args_app args1 args2 v w :
  main_args v (args1 ++ args2) w
  = bind (main_args v args1) (λ v', main_args v' args2) w.
Proof.
  revert v w. induction args1 as [|arg rest IH]; intros v w; [done|].
  simpl. unfold bind in *.
  destruct (main_arg v arg w) as [[v'| |] w']; [apply IH|done..].
Qed.

Lemma main_args_help args : ∀ v w,
  (∃ arg, arg ∈ args ∧ isHelpFlag arg = true) →
  main_args v args w = (Exited 0, helped w).
Proof.
  induction args as [|arg rest IH]; intros v w (h & Hin & Hh).
  { by apply elem_of_nil in Hin. }
  simpl. unfold bind.
  destruct (isHelpFlag arg) eqn:Harg.
  - unfold main_arg. unfold isHelpFlag in Harg. by rewrite Harg.
  - destruct (main_arg_cases v arg w) as [[v' ->]| ->]; [|done].
    apply IH. exists h. split; [|done].
    apply elem_of_cons in Hin as [->|Hin]; [congruence|done].
Qed.

(** After an IP flag the scan waits for an IP, after a configuration flag
    for a path; a flag of the other kind in between ends the process. *)
Lemma main_arg_ip_flag v arg w :
  isIPFlag arg = true →
  main_arg v arg w
  = if needConf v then (Exited 0, helped w)
    else (Return {| needIP := true; needConf := false; ipAddr := ipAddr v;
                    hostnames := hostnames v;
                    confFilepath := confFilepath v |}, w).
Proof.
  intros H. unfold isIPFlag in H. unfold main_arg.
  destruct (String.eqb arg "-h" || String.eqb arg "--help") eqn:Hh.
  { exfalso. apply orb_true_iff in H as [H|H], Hh as [Hh|Hh];
      apply String.eqb_eq in H, Hh; congruence. }
  rewrite H. by destruct (needConf v).
Qed.

Lemma main_arg_conf_flag v arg w :
  isConfFlag arg = true →
  main_arg v arg w
  = if needIP v then (Exited 0, helped w)
    else (Return {| needIP := false; needConf := true; ipAddr := ipAddr v;
                    hostnames := hostnames v;
                    confFilepath := confFilepath v |}, w).
Proof.
  intros H. unfold isConfFlag in H. unfold main_arg.
  destruct (String.eqb arg "-h" || String.eqb arg "--help") eqn:Hh.
  { exfalso. apply orb_true_iff in H as [H|H], Hh as [Hh|Hh];
      apply String.eqb_eq in H, Hh; congruence. }
  destruct (String.eqb arg "-i" || String.eqb arg "--ip") eqn:Hi.
  { exfalso. apply orb_true_iff in H as [H|H], Hi as [Hi|Hi];
      apply String.eqb_eq in H, Hi; congruence. }
  rewrite H. by destruct (needIP v).
Qed.

Lemma main_arg_value v arg w :
  isFlag arg = false →
  main_arg v arg w
  = (Return (if needIP v then
               {| needIP := false; needConf := needConf v; ipAddr := arg;
                  hostnames := hostnames v;
                  confFilepath := confFilepath v |}
             else if needConf v then
               {| needIP := needIP v; needConf := false; ipAddr := ipAddr v;
                  hostnames := hostnames v; confFilepath := arg |}
             else
               {| needIP := needIP v; needConf := needConf v;
                  ipAddr := ipAddr v; hostnames := hostnames v ++ [arg];
                  confFilepath := confFilepath v |}), w).
Proof.
  unfold isFlag, isHelpFlag, isIPFlag, isConfFlag, main_arg. intros H.
  apply orb_false_iff in H as [H Hc]. apply orb_false_iff in H as [Hh Hi].
  rewrite Hh, Hi, Hc. by repeat case_match.
Qed.

Local Abbreviation start exe :=
  (startFlags (filepath.Join (filepath.Dir exe) defaultConfigFilename)).

Local Abbreviation main_batch' :=
  (main_batch GOOS GOARCH http_NewRequest peer).

(** [main] is the scan of the command line, the check for a pending flag,
    the load of the configurations and the batch. *)
Lemma main_eq exe args :
  os_Executable = (exe, None) →
  main' args
  = (let* v := main_args (start exe) args in
     let* _ := (if needIP v || needConf v then ExitWithHelpMessage
                else ret tt) in
     let* (confs, err) := ReadConfigs json_Unmarshal (confFilepath v) in
     let* _ := (match err with
                | None => log_Printf "loaded configs file at: %s"
                                     [confFilepath v]
                | Some _ => ExitWithError "failed to read configs file at: %s"
                                          [confFilepath v]
                end) in
     main_batch' confs v err).
Proof.
  intros Hexe. unfold main, DefaultConfFilepath, pwd. rewrite Hexe.
  reflexivity.
Qed.

Lemma main_scan_exits exe args w :
  os_Executable = (exe, None) →
  main_args (start exe) args w = (Exited 0, helped w) →
  main' args w = (Exited 0, helped w).
Proof.
  intros Hexe Hscan. rewrite (main_eq exe) by done.
  unfold bind at 1. by rewrite Hscan.
Qed.

Lemma main_scan_pending exe args v w :
  os_Executable = (exe, None) →
  main_args (start exe) args w = (Return v, w) →
  needIP v || needConf v = true →
  main' args w = (Exited 0, helped w).
Proof.
  intros Hexe Hscan Hpending. rewrite (main_eq exe) by done.
  unfold bind at 1. rewrite Hscan. unfold bind at 1. by rewrite Hpending.
Qed.

(** [main] once the command line is read and the configurations are
    loaded. *)
Lemma main_loaded exe args v confs w :
  os_Executable = (exe, None) →
  main_args (start exe) args w = (Return v, w) →
  needIP v = false → needConf v = false →
  (ReadConfigs json_Unmarshal (confFilepath v) w).1 = Return (confs, None) →
  main' args w
  = main_batch' confs v None
      (logging ("loaded configs file at: " +:+ confFilepath v) w).
Proof.
  intros Hexe Hscan HnIP HnConf Hread. rewrite (main_eq exe) by done.
  unfold bind at 1. rewrite Hscan. unfold bind at 1.
  rewrite HnIP, HnConf. simpl. unfold bind at 1.
  assert (ReadConfigs json_Unmarshal (confFilepath v) w
          = (Return (confs, None), w)) as ->.
  { revert Hread. unfold ReadConfigs, bind, os_ReadFile, ret. simpl.
    destruct (os.ReadFile _ _) as [file [e|]]; simpl; [done|].
    destruct (json_Unmarshal file); simpl; congruence. }
  unfold bind at 1, log_Printf at 1. unfold logging. simpl.
  by rewrite append_nil_r.
Qed.

(** X1: a help flag ([-h] or [--help]) anywhere on the command line ends
    the process with status 0 after the help is printed: no file is read or
    written, nothing is logged and no request is sent. *)
Theorem main_help_flag exe args arg w :
  os_Executable = (exe, None) →
  arg ∈ args → isHelpFlag arg = true →
  main' args w = (Exited 0, helped w).
Proof.
  intros Hexe Hin Hh. apply (main_scan_exits exe); [done|].
  apply main_args_help. by exists arg.
Qed.

(** X2: a command line whose last argument is an IP flag or a
    configuration flag lacks the value of that flag: the help is printed
    and the process ends with status 0, whatever stands before. *)
Theorem main_flag_without_value exe args flag w :
  os_Executable = (exe, None) →
  isIPFlag flag || isConfFlag flag = true →
  main' (args ++ [flag]) w = (Exited 0, helped w).
Proof.
  intros Hexe Hflag.
  destruct (main_args_cases (args ++ [flag]) (start exe) w)
    as [[v Hv]|Hexit]; [|by apply (main_scan_exits exe)].
  apply (main_scan_pending exe _ v); [done..|].
  rewrite main_args_app in Hv. unfold bind in Hv.
  destruct (main_args_cases args (start exe) w) as [[v1 H1]|H1];
    rewrite H1 in Hv; [|done].
  simpl in Hv. unfold bind, ret in Hv.
  apply orb_true_iff in Hflag as [Hf|Hf].
  - rewrite (main_arg_ip_flag _ _ _ Hf) in Hv.
    destruct (needConf v1); by simplify_eq.
  - rewrite (main_arg_conf_flag _ _ _ Hf) in Hv.
    destruct (needIP v1); by simplify_eq.
Qed.

(** X3: an IP flag directly followed by a configuration flag, or a
    configuration flag directly followed by an IP flag, ends the process
    with the help and status 0, wherever the pair stands. *)
Theorem main_flags_clash exe before flag1 flag2 after w :
  os_Executable = (exe, None) →
  (isIPFlag flag1 = true ∧ isConfFlag flag2 = true)
  ∨ (isConfFlag flag1 = true ∧ isIPFlag flag2 = true) →
  main' (before ++ flag1 :: flag2 :: after) w = (Exited 0, helped w).
Proof.
  intros Hexe Hflags. apply (main_scan_exits exe); [done|].
  rewrite main_args_app. unfold bind.
  destruct (main_args_cases before (start exe) w) as [[v1 ->]| ->]; [|done].
  simpl. unfold bind.
  destruct Hflags as [[H1 H2]|[H1 H2]].
  - rewrite (main_arg_ip_flag _ _ _ H1).
    destruct (needConf v1); [done|].
    by rewrite (main_arg_conf_flag _ _ _ H2).
  - rewrite (main_arg_conf_flag _ _ _ H1).
    destruct (needIP v1); [done|].
    by rewrite (main_arg_ip_flag _ _ _ H2).
Qed.

(** X4: the scan reads a well-formed command line back: for items
    (hostnames, IPs after an IP flag, paths after a configuration flag)
    none of whose values is itself a flag, the variables after the scan are
    the items applied in order (hostnames appended, the last IP and the
    last path kept), no flag is pending and the world is untouched. *)
Theorem main_args_render items : ∀ v w,
  needIP v = false → needConf v = false →
  Forall (λ item, isFlag (itemValue item) = false) items →
  main_args v (concat (map render items)) w
  = (Return (foldl applyItem v items), w)
  ∧ needIP (foldl applyItem v items) = false
  ∧ needConf (foldl applyItem v items) = false.
Proof.
  induction items as [|item items IH]; intros v w HnIP HnConf Hwf; [done|].
  apply Forall_cons in Hwf as [Hval Hwf].
  assert (main_args v (render item) w = (Return (applyItem v item), w)) as Hi.
  { destruct item as [h|long ip|long path]; simpl in *; unfold bind, ret.
    - rewrite (main_arg_value _ _ _ Hval), HnIP, HnConf. done.
    - rewrite main_arg_ip_flag by (by destruct long).
      rewrite HnConf. rewrite (main_arg_value _ _ _ Hval). simpl.
      by rewrite HnIP.
    - rewrite main_arg_conf_flag by (by destruct long).
      rewrite HnIP. rewrite (main_arg_value _ _ _ Hval). simpl.
      by rewrite HnConf. }
  simpl. rewrite main_args_app. unfold bind at 1. rewrite Hi.
  apply IH; [by destruct item..|done].
Qed.

End CommandLine.

(** ** The batch *)

Section Batch.

Variables GOOS GOARCH : string.
Variable http_NewRequest : string → string → option error.
Variable peer : list Request → Request → option Response * option error.

Implicit Types (conf : Config) (confs : Configs) (w : World).
Implicit Types (cacheDir ip hostname : string) (err : option error).

Local Arguments fmt.Sprintf : simpl never.

Local Abbreviation main_hostname' :=
  (main_hostname GOOS GOARCH http_NewRequest peer).
Local Abbreviation main_hostnames' :=
  (main_hostnames GOOS GOARCH http_NewRequest peer).

Lemma main_hostname_unknown confs cacheDir ip err hostname w :
  ConfigForHostname confs hostname = None →
  main_hostname' confs cacheDir ip err hostname w
  = (Return err,
     {| fs := fs w; logged := logged w ++ unknownLines hostname;
        printed := printed w; sent := sent w |}).
Proof.
  intros Hconf. unfold main_hostname, bind, log_Printf, ret. simpl.
  rewrite Hconf. simpl. by rewrite <- app_assoc.
Qed.

(** One pass sends nothing, or the update request of its hostname. *)
Lemma main_hostname_sent_cases confs cacheDir ip err hostname w :
  sent (main_hostname' confs cacheDir ip err hostname w).2 = sent w
  ∨ ∃ conf, ConfigForHostname confs hostname = Some conf
      ∧ sent (main_hostname' confs cacheDir ip err hostname w).2
        = sent w ++ [updateRequest GOOS GOARCH conf ip].
Proof.
  rewrite main_hostname_sent.
  destruct (ConfigForHostname confs hostname) as [conf|]; [|by left].
  destruct (cached _ _) as [savedIP [e|]]; [by left|].
  destruct (String.eqb ip savedIP); [by left|].
  destruct (http_NewRequest _ _); [by left|].
  right. by exists conf.
Qed.

Lemma updateRequests_cons confs ip hostname hostnames :
  updateRequests GOOS GOARCH confs ip (hostname :: hostnames)
  = match ConfigForHostname confs hostname with
    | Some conf => updateRequest GOOS GOARCH conf ip
                   :: updateRequests GOOS GOARCH confs ip hostnames
    | None => updateRequests GOOS GOARCH confs ip hostnames
    end.
Proof.
  unfold updateRequests. simpl.
  by destruct (ConfigForHostname confs hostname).
Qed.

(** The requests the loop sends: update requests of configured entries
    of the list, in the order of the list, at most one for each entry. *)
Lemma main_hostnames_sent_sublist confs cacheDir ip hostnames : ∀ err w,
  ∃ reqs,
    sent (main_hostnames' confs cacheDir ip err hostnames w).2
    = sent w ++ reqs
    ∧ reqs `sublist_of` updateRequests GOOS GOARCH confs ip hostnames.
Proof.
  induction hostnames as [|h hs IH]; intros err w.
  { exists []. by rewrite app_nil_r. }
  assert (∃ reqs2,
    sent (main_hostnames' confs cacheDir ip err (h :: hs) w).2
    = sent (main_hostname' confs cacheDir ip err h w).2 ++ reqs2
    ∧ reqs2 `sublist_of` updateRequests GOOS GOARCH confs ip hs)
    as (reqs2 & Hs2 & Hsub2).
  { simpl. unfold bind.
    destruct (main_hostname' confs cacheDir ip err h w) as [[err1| |] w1];
      simpl; [apply IH|exists []..];
      by rewrite app_nil_r; split; [|apply sublist_nil_l]. }
  rewrite Hs2, updateRequests_cons.
  destruct (main_hostname_sent_cases confs cacheDir ip err h w)
    as [->|(conf & -> & ->)].
  - exists reqs2. split; [done|].
    destruct (ConfigForHostname confs h); [by apply sublist_cons|done].
  - exists (updateRequest GOOS GOARCH conf ip :: reqs2).
    rewrite <- app_assoc. split; [done|]. by apply sublist_skip.
Qed.

(** X5: a configured hostname overwrites [main]'s [err]: the pass over it
    does not depend on the error the passes before it (or the probe) left,
    so the error the loop returns is that of the passes from the last
    configured hostname on. *)
Theorem main_hostnames_forget_err
    confs cacheDir ip hostnames hostname conf err1 err2 w :
  hostname ∈ hostnames →
  ConfigForHostname confs hostname = Some conf →
  main_hostnames' confs cacheDir ip err1 hostnames w
  = main_hostnames' confs cacheDir ip err2 hostnames w.
Proof.
  intros Hin Hconf. revert err1 err2 w.
  induction hostnames as [|h hs IH]; intros err1 err2 w.
  { by apply elem_of_nil in Hin. }
  simpl. unfold bind.
  destruct (ConfigForHostname confs h) as [c|] eqn:Hh.
  - assert (main_hostname' confs cacheDir ip err1 h w
            = main_hostname' confs cacheDir ip err2 h w) as ->; [|done].
    unfold main_hostname. by rewrite Hh.
  - rewrite !main_hostname_unknown by done.
    apply IH. apply elem_of_cons in Hin as [->|Hin]; [congruence|done].
Qed.

(** The loop over hostnames that are not in the configurations. *)
Lemma main_hostnames_all_unknown confs cacheDir ip hostnames : ∀ err w,
  (∀ hostname, hostname ∈ hostnames →
               ConfigForHostname confs hostname = None) →
  main_hostnames' confs cacheDir ip err hostnames w
  = (Return err,
     {| fs := fs w;
        logged := logged w ++ concat (map unknownLines hostnames);
        printed := printed w; sent := sent w |}).
Proof.
  induction hostnames as [|h hs IH]; intros err w Hunknown.
  { simpl. rewrite app_nil_r. by destruct w. }
  simpl. unfold bind. rewrite main_hostname_unknown by (apply Hunknown; by left).
  rewrite IH by (intros h' Hin; apply Hunknown; by right).
  simpl. by rewrite <- !app_assoc.
Qed.

(** X6: when the cache file of a configured hostname cannot be read (the
    path is a directory), the pass over the hostname returns the read
    error without an update attempt: nothing is sent and the file system
    is as before. *)
Theorem main_hostname_cache_unreadable confs cacheDir ip err hostname conf w :
  let name := ipCacheFilepath cacheDir (Hostname conf) in
  ConfigForHostname confs hostname = Some conf →
  os.nodes (fs w) !! name = Some os.Directory →
  main_hostname' confs cacheDir ip err hostname w
  = (Return (Some (PathError "read" name EISDIR)),
     logging (processing hostname) w).
Proof.
  intros name Hconf Hdir. unfold main_hostname, bind, log_Printf, ret. simpl.
  rewrite Hconf. unfold LoadCachedIP, bind, os_Stat, os_ReadFile, ret,
    os.Stat, os.ReadFile. simpl. fold name. rewrite Hdir. simpl.
  by rewrite Hdir.
Qed.

(** X24: no retry within a run, a retry on the next: when the update of a
    configured hostname is not accepted, the pass sends that one request
    and leaves every cached IP as it was, and the next pass over the
    hostname with the same IP sends the request again. *)
Theorem main_hostname_retries
    confs cacheDir ip err err2 hostname conf savedIP w :
  let name := ipCacheFilepath cacheDir (Hostname conf) in
  let req := updateRequest GOOS GOARCH conf ip in
  ConfigForHostname confs hostname = Some conf →
  cached (fs w) name = (savedIP, None) →
  ip ≠ savedIP →
  http_NewRequest "POST" (URL req) = None →
  accepted GOOS GOARCH http_NewRequest peer conf ip w = false →
  let first := main_hostname' confs cacheDir ip err hostname w in
  let second := main_hostname' confs cacheDir ip err2 hostname first.2 in
  sent first.2 = sent w ++ [req]
  ∧ (∀ other, cached (fs first.2) other = cached (fs w) other)
  ∧ sent second.2 = sent first.2 ++ [req].
Proof.
  intros name req Hconf Hcached Hip Hreq Hacc first second.
  apply String.eqb_neq in Hip.
  assert (∀ other, cached (fs first.2) other = cached (fs w) other) as Hsame.
  { intros other. subst first. rewrite main_hostname_fs, Hconf. simpl.
    fold name. rewrite Hcached, Hip, Hacc. apply loaded_cached. }
  assert (sent first.2 = sent w ++ [req]) as Hfirst.
  { subst first. rewrite main_hostname_sent, Hconf. fold name req.
    by rewrite Hcached, Hip, Hreq. }
  split; [done|]. split; [done|].
  subst second. rewrite main_hostname_sent, Hconf. fold name req.
  by rewrite Hsame, Hcached, Hip, Hreq.
Qed.

End Batch.

(** ** More on the helpers *)

Section Helpers.

Variables GOOS GOARCH : string.
Variable http_NewRequest : string → string → option error.

Implicit Types (conf : Config) (confs : Configs) (w : World).
Implicit Types (cacheDir ip hostname response : string).
Implicit Types (peer : list Request → Request → option Response * option error).

Local Arguments fmt.Sprintf : simpl never.

(** X7: an update that fails before a response body is read returns the
    error of the failing step as it is, writes no cache file and logs
    nothing: the error of [http.NewRequest] (then nothing is sent), the
    error of [Do], or the error of reading the body. *)
Theorem UpdateIP_transport_error peer conf cacheDir ip w :
  let req := updateRequest GOOS GOARCH conf ip in
  let r := UpdateIP GOOS GOARCH http_NewRequest peer conf cacheDir ip w in
  (∀ e, http_NewRequest "POST" (URL req) = Some e →
        r = (Return (Some e), w))
  ∧ (∀ resp e, http_NewRequest "POST" (URL req) = None →
        peer (sent w) req = (resp, Some e) →
        r = (Return (Some e), sending req w))
  ∧ (∀ resp e, http_NewRequest "POST" (URL req) = None →
        peer (sent w) req = (Some resp, None) →
        Body resp = ReadAll_err e →
        r = (Return (Some e), sending req w)).
Proof.
  intros req r. subst r req.
  unfold UpdateIP, updateRequest, bind, httpClient_Do, ret. simpl.
  split; [|split].
  - by intros e ->.
  - intros resp e -> Hpeer. simpl. by rewrite Hpeer.
  - intros resp e -> Hpeer Hbody. simpl. by rewrite Hpeer, Hbody.
Qed.

(** X8: [UpdateIP] never looks at the HTTP status of the reply: two peers
    whose replies differ in the status code only give the same outcome and
    the same world. *)
Theorem UpdateIP_ignores_status peer1 peer2 conf cacheDir ip w :
  (∀ before req,
     (peer1 before req).2 = (peer2 before req).2
     ∧ Body <$> (peer1 before req).1 = Body <$> (peer2 before req).1) →
  UpdateIP GOOS GOARCH http_NewRequest peer1 conf cacheDir ip w
  = UpdateIP GOOS GOARCH http_NewRequest peer2 conf cacheDir ip w.
Proof.
  intros Hsame. unfold UpdateIP, bind, httpClient_Do, ret. simpl.
  destruct (http_NewRequest _ _); [done|]. simpl.
  match goal with |- context [peer1 ?b ?r] =>
    destruct (Hsame b r) as [He Hb];
    destruct (peer1 b r) as [resp1 err1], (peer2 b r) as [resp2 err2] end.
  simpl in *. subst err2. destruct err1; [done|].
  destruct resp1 as [resp1|], resp2 as [resp2|]; simplify_eq/=; [|done].
  by rewrite Hb.
Qed.

Lemma Split_token_prefix s r c :
  strings.Contains s c = false →
  strings.Split (s +:+ r) c
  = match strings.Split r c with
    | t0 :: ts => (s +:+ t0) :: ts
    | [] => [s]
    end.
Proof.
  induction s as [|a s IH]; intros Hs.
  { change ("" +:+ r) with r. pose proof (Split_nonempty r c).
    by destruct (strings.Split r c). }
  rewrite append_cons. simpl in *.
  apply orb_false_iff in Hs as [-> Hs]. rewrite (IH Hs).
  pose proof (Split_nonempty r c). by destruct (strings.Split r c).
Qed.

Lemma append_ne_self s a t : s +:+ String a t ≠ s.
Proof.
  induction s as [|b s IH]; [done|]. rewrite append_cons. by intros [=].
Qed.

(** X9: the returned IP must end the response or be followed by a space:
    a response [<status> <ip>] with any other byte after the requested IP
    (a line feed, say) counts as a mismatch and leaves the cache file as it
    is, whatever the status token. *)
Theorem checkResponse_trailing_byte conf cacheDir status ip a rest w :
  token status → token ip → a ≠ " "%char →
  let r := checkResponse GOOS GOARCH conf cacheDir
             (status +:+ " " +:+ ip +:+ String a rest) ip w in
  ∃ returned,
    returned ≠ ip
    ∧ r.1 = Return (Some (Errorf
              "returned ip differs from the requested one: %s and %s"
              [returned; ip]))
    ∧ fs r.2 = fs w.
Proof.
  intros Hs Hip Ha r. subst r.
  assert (∃ t0 ts, strings.Split (status +:+ " " +:+ ip +:+ String a rest) " "
                   = status :: (ip +:+ String a t0) :: ts) as (t0 & ts & Hsplit).
  { change (" " +:+ ip +:+ String a rest)
      with (String " " (ip +:+ String a rest)).
    rewrite Split_app, (Split_no_sep status) by done.
    rewrite Split_token_prefix by done. simpl.
    apply Ascii.eqb_neq in Ha. rewrite Ha.
    pose proof (Split_nonempty rest " ").
    destruct (strings.Split rest " ") as [|t0 ts]; [done|]. by eexists _, _. }
  assert (String.eqb ip (ip +:+ String a t0) = false) as Hne.
  { apply String.eqb_neq. intros Heq. by apply (append_ne_self ip a t0). }
  exists (ip +:+ String a t0). split; [apply append_ne_self|]. split.
  - unfold checkResponse. rewrite Hsplit, Hne.
    unfold bind, ret, log_Printf. by repeat case_match.
  - rewrite checkResponse_fs. unfold echoes. by rewrite Hsplit, Hne.
Qed.

(** X10: [cacheIP] returns nil exactly when the write is not refused;
    then a load of the hostname returns the IP just saved, with no error;
    otherwise the file system is as before. *)
Theorem cacheIP_round_trip conf cacheDir ip w :
  let name := ipCacheFilepath cacheDir (Hostname conf) in
  let r := cacheIP conf cacheDir ip w in
  (r.1 = Return None ↔ writable (fs w) name)
  ∧ (r.1 = Return None →
     (LoadCachedIP conf cacheDir r.2).1 = Return (ip, None))
  ∧ (r.1 ≠ Return None → fs r.2 = fs w).
Proof.
  intros name r. subst r. rewrite cacheIP_eq. fold name. simpl.
  assert (Return (os.WriteFile (fs w) name ip).2 = Return None
          ↔ writable (fs w) name) as Hiff.
  { split.
    - intros Hnil. unfold os.WriteFile in Hnil.
      case_bool_decide; [done|]. split; [done|].
      by destruct (os.nodes (fs w) !! name) as [[?|]|].
    - intros Hw. by rewrite WriteFile_writable. }
  split; [done|]. split.
  - intros Hw%Hiff. rewrite LoadCachedIP_result. simpl.
    f_equal. by apply cached_regular, WriteFile_lookup.
  - intros Hw. apply WriteFile_refused. by rewrite <- Hiff.
Qed.

(** X11: a load of a hostname whose cache file exists never writes: it
    returns the content of a regular file byte for byte (nothing is
    trimmed), or the read error when the path is a directory, and leaves
    the file system and the requests as they are. *)
Theorem LoadCachedIP_existing_file conf cacheDir node w :
  let name := ipCacheFilepath cacheDir (Hostname conf) in
  os.nodes (fs w) !! name = Some node →
  (LoadCachedIP conf cacheDir w).1
  = Return (match node with
            | os.RegularFile data => (data, None)
            | os.Directory => ("", Some (PathError "read" name EISDIR))
            end)
  ∧ fs (LoadCachedIP conf cacheDir w).2 = fs w
  ∧ sent (LoadCachedIP conf cacheDir w).2 = sent w.
Proof.
  intros name Hnode.
  rewrite LoadCachedIP_result, LoadCachedIP_fs, LoadCachedIP_sent.
  fold name. unfold cached, os.ReadFile. rewrite Hnode.
  by destruct node.
Qed.

(** X12: [ConfigForHostname] returns the first configuration of the
    hostname: a later configuration of the same hostname is never used,
    and the result is nil exactly when no configuration has the
    hostname. *)
Theorem ConfigForHostname_first confs hostname :
  match ConfigForHostname confs hostname with
  | Some conf =>
      Hostname conf = hostname
      ∧ ∃ before after,
          Configs_ confs = before ++ conf :: after
          ∧ ∀ c, c ∈ before → Hostname c ≠ hostname
  | None => ∀ c, c ∈ Configs_ confs → Hostname c ≠ hostname
  end.
Proof.
  unfold ConfigForHostname.
  induction (Configs_ confs) as [|c cs IH]; simpl.
  { intros c Hin. by apply elem_of_nil in Hin. }
  destruct (String.eqb (Hostname c) hostname) eqn:E.
  - apply String.eqb_eq in E. split; [done|]. exists [], cs. split; [done|].
    intros c' Hin. by apply elem_of_nil in Hin.
  - apply String.eqb_neq in E.
    destruct (ConfigForHostname_ cs hostname) as [conf|].
    + destruct IH as (Hh & before & after & -> & Hbefore). split; [done|].
      exists (c :: before), after. split; [done|].
      intros c' Hin. apply elem_of_cons in Hin as [->|Hin]; auto.
    + intros c' Hin. apply elem_of_cons in Hin as [->|Hin]; auto.
Qed.

(** X13: a probe answered with status 200 and a readable body returns the
    body without its surrounding white space as the IP, with no error and
    no check of what the body holds; one GET request for the check URL is
    sent, and nothing is logged or written. *)
Theorem GetExternalIP_success peer resp body w :
  http_NewRequest "GET" checkIPURL = None →
  peer (sent w) (probeRequest GOOS GOARCH) = (Some resp, None) →
  StatusCode resp = 200%Z →
  Body resp = ReadAll_ok body →
  GetExternalIP GOOS GOARCH http_NewRequest peer w
  = (Return (strings.TrimSpace body, None),
     sending (probeRequest GOOS GOARCH) w).
Proof.
  intros Hreq Hpeer Hstatus Hbody.
  unfold GetExternalIP, bind, httpClient_Do, ret. rewrite Hreq. simpl.
  fold (probeRequest GOOS GOARCH). by rewrite Hpeer, Hstatus, Hbody.
Qed.

(** X25: the status token is logged before the returned IP counts: for a
    response [good <returned-ip>] whose returned IP differs from the
    requested one, the one line logged is that the update was successful,
    and the outcome is the mismatch error. *)
Theorem checkResponse_good_mismatch_log conf cacheDir returned ip w :
  token returned → returned ≠ ip →
  let r := checkResponse GOOS GOARCH conf cacheDir
             ("good" +:+ " " +:+ returned) ip w in
  logged r.2 = logged w ++ ["update was successful"]
  ∧ r.1 = Return (Some (Errorf
            "returned ip differs from the requested one: %s and %s"
            [returned; ip])).
Proof.
  intros Hr Hne r. subst r.
  assert (String.eqb ip returned = false) as Hb
    by (apply String.eqb_neq; congruence).
  unfold checkResponse. rewrite (Split_two "good" returned) by done.
  by rewrite Hb.
Qed.

End Helpers.

(** ** The whole run *)

Section Run.

Variables GOOS GOARCH : string.
Variable os_Executable : string * option error.
Variable json_Unmarshal : string → Configs + error.
Variable http_NewRequest : string → string → option error.
Variable peer : list Request → Request → option Response * option error.

Local Abbreviation main' :=
  (main GOOS GOARCH os_Executable json_Unmarshal http_NewRequest peer).
Local Abbreviation start exe :=
  (startFlags (filepath.Join (filepath.Dir exe) defaultConfigFilename)).
Local Abbreviation main_loaded' :=
  (main_loaded GOOS GOARCH os_Executable json_Unmarshal http_NewRequest peer).

Implicit Types (v : Flags) (args : list string) (w : World) (confs : Configs).

Lemma ReadConfigs_world path w :
  (ReadConfigs json_Unmarshal path w).2 = w.
Proof.
  unfold ReadConfigs, bind, os_ReadFile, ret. simpl.
  destruct (os.ReadFile _ _) as [file [e|]]; simpl; [done|].
  by destruct (json_Unmarshal file).
Qed.

Lemma batchHostnames_eq confs v :
  (if (length (hostnames v) <=? 0)%nat
   then hostnames v ++ map Hostname (Configs_ confs)
   else hostnames v)
  = batchHostnames confs v.
Proof. unfold batchHostnames. by destruct (hostnames v). Qed.

Lemma main_check_sent err w : sent (main_check err w).2 = sent w.
Proof. by destruct err. Qed.

Lemma main_check_fs err w : fs (main_check err w).2 = fs w.
Proof. by destruct err. Qed.

(** The batch when the IP is known without a probe. *)
Lemma main_batch_known_ip confs v err w :
  let ip := if String.eqb (ipAddr v) "" then IPAddress confs else ipAddr v in
  ip ≠ "" →
  main_batch GOOS GOARCH http_NewRequest peer confs v err w
  = bind (main_hostnames GOOS GOARCH http_NewRequest peer confs
            (filepath.Dir (confFilepath v)) ip err (batchHostnames confs v))
         main_check w.
Proof.
  intros ip Hip. unfold main_batch. rewrite batchHostnames_eq. fold ip.
  apply String.eqb_neq in Hip. rewrite Hip.
  unfold bind at 1, ret. simpl. rewrite Hip. reflexivity.
Qed.

(** X14: when [os.Executable] fails, [main] panics before it reads its
    arguments, whatever they are: also with a help flag, and also when the
    command line names the configuration file. *)
Theorem main_no_executable path err args w :
  os_Executable = (path, Some err) →
  main' args w = (Panicked (Error err), w).
Proof.
  intros Hexe. unfold main, DefaultConfFilepath, pwd. by rewrite Hexe.
Qed.

(** X15: when the configuration file cannot be read or decoded, [main]
    logs that it failed to read the file (without the cause) and exits
    with status 1; no request is sent and no file is written. *)
Theorem main_config_unreadable exe args v c err w :
  os_Executable = (exe, None) →
  main_args (start exe) args w = (Return v, w) →
  needIP v = false → needConf v = false →
  (ReadConfigs json_Unmarshal (confFilepath v) w).1 = Return (c, Some err) →
  main' args w
  = (Exited 1,
     logging ("failed to read configs file at: " +:+ confFilepath v) w).
Proof.
  intros Hexe Hscan HnIP HnConf Hread.
  rewrite (main_eq GOOS GOARCH os_Executable json_Unmarshal
             http_NewRequest peer exe) by done.
  unfold bind at 1. rewrite Hscan. unfold bind at 1.
  rewrite HnIP, HnConf. simpl. unfold bind at 1.
  pose proof (ReadConfigs_world (confFilepath v) w) as Hw.
  destruct (ReadConfigs json_Unmarshal (confFilepath v) w) as [o w1].
  simpl in *. subst o w1. unfold ExitWithError, bind, log_Printf, os_Exit.
  unfold logging. simpl. by rewrite append_nil_r.
Qed.

(** X16: with an IP on the command line, or else in the configurations,
    [main] sends no probe: the IP of the command line wins over that of
    the configurations, and the requests sent are update requests for
    that IP of configured entries of the batch, in the order of the batch
    and at most one for each entry (a hostname named twice is two
    entries). *)
Theorem main_known_ip exe args v confs w :
  let ip := if String.eqb (ipAddr v) "" then IPAddress confs else ipAddr v in
  os_Executable = (exe, None) →
  main_args (start exe) args w = (Return v, w) →
  needIP v = false → needConf v = false →
  (ReadConfigs json_Unmarshal (confFilepath v) w).1 = Return (confs, None) →
  ip ≠ "" →
  ∃ reqs,
    sent (main' args w).2 = sent w ++ reqs
    ∧ reqs `sublist_of`
        updateRequests GOOS GOARCH confs ip (batchHostnames confs v).
Proof.
  intros ip Hexe Hscan HnIP HnConf Hread Hip.
  rewrite (main_loaded' exe args v confs) by done.
  rewrite main_batch_known_ip by done. fold ip. unfold bind.
  match goal with |- context [main_hostnames _ _ _ _ ?cs ?d ?i ?e ?hs ?w0] =>
    destruct (main_hostnames_sent_sublist GOOS GOARCH http_NewRequest peer
                cs d i hs e w0) as (reqs & Hs & Hsub);
    destruct (main_hostnames GOOS GOARCH http_NewRequest peer
                cs d i e hs w0) as [[err1| |] w1] end;
    simpl in *; exists reqs; rewrite ?main_check_sent; done.
Qed.

(** X17: when no IP is given and the probe is answered with status 200
    and a body of white space only, the resolved IP is empty: [main] goes
    through no hostname, sends no update request, writes no file and ends
    normally, logging that the update finished. *)
Theorem main_blank_probe exe args v confs resp body w :
  os_Executable = (exe, None) →
  main_args (start exe) args w = (Return v, w) →
  needIP v = false → needConf v = false →
  (ReadConfigs json_Unmarshal (confFilepath v) w).1 = Return (confs, None) →
  ipAddr v = "" → IPAddress confs = "" →
  http_NewRequest "GET" checkIPURL = None →
  peer (sent w) (probeRequest GOOS GOARCH) = (Some resp, None) →
  StatusCode resp = 200%Z →
  Body resp = ReadAll_ok body →
  strings.TrimSpace body = "" →
  main' args w
  = (Return tt,
     logging "update finished"
       (logging "fetched external ip: "
          (sending (probeRequest GOOS GOARCH)
             (logging ("loaded configs file at: " +:+ confFilepath v) w)))).
Proof.
  intros Hexe Hscan HnIP HnConf Hread Hip Hcip Hreq Hpeer Hstatus Hbody Hblank.
  rewrite (main_loaded' exe args v confs) by done.
  unfold main_batch. rewrite Hip, Hcip. simpl.
  unfold bind at 1. unfold bind at 1.
  unfold GetExternalIP, bind, httpClient_Do, ret. rewrite Hreq. simpl.
  fold (probeRequest GOOS GOARCH). rewrite Hpeer, Hstatus, Hbody. simpl.
  rewrite Hblank. reflexivity.
Qed.

(** X18: when every hostname of the command line is missing from the
    configurations and the IP is known without a probe, [main] skips them
    all and ends normally: no request is sent, no file is written, and the
    last line logged is that the update finished. *)
Theorem main_unknown_hostnames exe args v confs w :
  let ip := if String.eqb (ipAddr v) "" then IPAddress confs else ipAddr v in
  os_Executable = (exe, None) →
  main_args (start exe) args w = (Return v, w) →
  needIP v = false → needConf v = false →
  (ReadConfigs json_Unmarshal (confFilepath v) w).1 = Return (confs, None) →
  ip ≠ "" →
  hostnames v ≠ [] →
  (∀ hostname, hostname ∈ hostnames v →
               ConfigForHostname confs hostname = None) →
  (main' args w).1 = Return tt
  ∧ sent (main' args w).2 = sent w
  ∧ fs (main' args w).2 = fs w
  ∧ last (logged (main' args w).2) = Some "update finished".
Proof.
  intros ip Hexe Hscan HnIP HnConf Hread Hip Hhosts Hunknown.
  rewrite (main_loaded' exe args v confs) by done.
  rewrite main_batch_known_ip by done. fold ip. unfold bind.
  assert (batchHostnames confs v = hostnames v) as ->.
  { unfold batchHostnames. by destruct (hostnames v). }
  rewrite main_hostnames_all_unknown by done. simpl.
  repeat split; try done. by rewrite last_snoc.
Qed.

Lemma main_args_hosts hosts : ∀ v w,
  needIP v = false → needConf v = false →
  Forall (λ hostname, isFlag hostname = false) hosts →
  main_args v hosts w
  = (Return {| needIP := needIP v; needConf := needConf v;
               ipAddr := ipAddr v; hostnames := hostnames v ++ hosts;
               confFilepath := confFilepath v |}, w).
Proof.
  induction hosts as [|h hs IH]; intros v w HnIP HnConf Hnoflag.
  { simpl. rewrite app_nil_r. by destruct v. }
  apply Forall_cons in Hnoflag as [Hh Hhs].
  simpl. unfold bind. rewrite (main_arg_value _ _ _ Hh), HnIP, HnConf.
  rewrite IH by done. simpl. by rewrite <- app_assoc.
Qed.

(** X19: a run without hostnames is the run with the hostnames of all the
    configurations appended to the command line, in the order of the
    configuration file (provided none of them reads as a flag). *)
Theorem main_default_hostnames exe args v confs w :
  os_Executable = (exe, None) →
  main_args (start exe) args w = (Return v, w) →
  needIP v = false → needConf v = false →
  (ReadConfigs json_Unmarshal (confFilepath v) w).1 = Return (confs, None) →
  hostnames v = [] →
  Forall (λ conf, isFlag (Hostname conf) = false) (Configs_ confs) →
  main' args w = main' (args ++ map Hostname (Configs_ confs)) w.
Proof.
  intros Hexe Hscan HnIP HnConf Hread Hnone Hnoflag.
  set (hosts := map Hostname (Configs_ confs)).
  set (v' := {| needIP := needIP v; needConf := needConf v;
                ipAddr := ipAddr v; hostnames := hostnames v ++ hosts;
                confFilepath := confFilepath v |}).
  assert (main_args (start exe) (args ++ hosts) w = (Return v', w)) as Hscan'.
  { rewrite main_args_app. unfold bind. rewrite Hscan.
    apply main_args_hosts; [done..|]. subst hosts. by apply Forall_fmap. }
  rewrite (main_loaded' exe args v confs) by done.
  rewrite (main_loaded' exe (args ++ hosts) v' confs) by done.
  unfold main_batch. rewrite !batchHostnames_eq.
  assert (batchHostnames confs v' = batchHostnames confs v) as ->; [|done].
  unfold batchHostnames, v'. simpl. rewrite Hnone. simpl.
  fold hosts. by destruct hosts.
Qed.

(** X26: with no IP on the command line or in the configurations, and a
    probe answered with status 200 and a body that is not blank, the
    body without its surrounding white space is the IP of the batch: the
    probe request is sent first, and the requests after it are update
    requests for that IP of configured entries of the batch, in the order
    of the batch and at most one for each entry (a hostname named twice
    is two entries). *)
Theorem main_probed_ip exe args v confs resp body w :
  let ip := strings.TrimSpace body in
  os_Executable = (exe, None) →
  main_args (start exe) args w = (Return v, w) →
  needIP v = false → needConf v = false →
  (ReadConfigs json_Unmarshal (confFilepath v) w).1 = Return (confs, None) →
  ipAddr v = "" → IPAddress confs = "" →
  http_NewRequest "GET" checkIPURL = None →
  peer (sent w) (probeRequest GOOS GOARCH) = (Some resp, None) →
  StatusCode resp = 200%Z →
  Body resp = ReadAll_ok body →
  ip ≠ "" →
  ∃ reqs,
    sent (main' args w).2 = sent w ++ probeRequest GOOS GOARCH :: reqs
    ∧ reqs `sublist_of`
        updateRequests GOOS GOARCH confs ip (batchHostnames confs v).
Proof.
  intros ip Hexe Hscan HnIP HnConf Hread Hip Hcip Hreq Hpeer Hstatus Hbody Hne.
  rewrite (main_loaded' exe args v confs) by done.
  unfold main_batch. rewrite batchHostnames_eq, Hip, Hcip. simpl.
  unfold bind at 1. unfold bind at 1.
  unfold GetExternalIP, bind, httpClient_Do, ret. rewrite Hreq. simpl.
  fold (probeRequest GOOS GOARCH). rewrite Hpeer, Hstatus, Hbody. simpl.
  fold ip. apply String.eqb_neq in Hne. rewrite Hne. simpl.
  match goal with |- context [main_hostnames _ _ _ _ ?cs ?d ?i ?e ?hs ?w0] =>
    destruct (main_hostnames_sent_sublist GOOS GOARCH http_NewRequest peer
                cs d i hs e w0) as (reqs & Hs & Hsub);
    destruct (main_hostnames GOOS GOARCH http_NewRequest peer
                cs d i e hs w0) as [[err1| |] w1] end;
    simpl in *; exists reqs; rewrite ?main_check_sent, <- ?app_assoc in *;
    try (destruct err1); simpl; rewrite ?Hs, <- ?app_assoc; done.
Qed.

End Run.

(** ** More scenarios *)

Section MoreScenarios.

Import Sample.

Local Abbreviation run peer :=
  (main GOOS GOARCH executable decode newRequest peer).

Lemma main_help_flag_witness :
  run (peer 200 "" "")
      ["a.example.com"; "-i"; "--help"; "-c"] (world [] [])
  = (Exited 0, helped (world [] [])).
Proof.
  apply (main_help_flag GOOS GOARCH executable decode newRequest
           (peer 200 "" "") "/usr/local/bin/google-ddns-updater" _ "--help");
    [reflexivity| |reflexivity].
  do 2 (apply elem_of_cons; right). apply elem_of_cons. by left.
Defined.

Lemma main_flag_without_value_witness :
  run (peer 200 "" "") (["a.example.com"] ++ ["--ip"]) (world [] [])
  = (Exited 0, helped (world [] [])).
Proof.
  apply (main_flag_without_value GOOS GOARCH executable decode newRequest
           (peer 200 "" "") "/usr/local/bin/google-ddns-updater");
    reflexivity.
Defined.

Lemma main_flags_clash_witness :
  run (peer 200 "" "")
      (["a.example.com"] ++ "-c" :: "--ip" :: ["1.2.3.4"]) (world [] [])
  = (Exited 0, helped (world [] [])).
Proof.
  apply (main_flags_clash GOOS GOARCH executable decode newRequest
           (peer 200 "" "") "/usr/local/bin/google-ddns-updater");
    [reflexivity|]. right. split; reflexivity.
Defined.

Lemma main_args_render_witness :
  let items := [ConfArg false confFile; Host "a.example.com";
                IPArg true "1.2.3.4"; Host "b.example.com";
                IPArg false "9.9.9.9"] in
  main_args (startFlags "config.json") (concat (map render items))
            (world [] [])
  = (Return (foldl applyItem (startFlags "config.json") items), world [] [])
  ∧ needIP (foldl applyItem (startFlags "config.json") items) = false
  ∧ needConf (foldl applyItem (startFlags "config.json") items) = false.
Proof.
  apply (main_args_render
           [ConfArg false confFile; Host "a.example.com";
            IPArg true "1.2.3.4"; Host "b.example.com";
            IPArg false "9.9.9.9"]); [reflexivity..|].
  repeat constructor.
Defined.

Lemma main_hostnames_forget_err_witness :
  main_hostnames GOOS GOARCH newRequest (peerRejectingA "9.9.9.9")
    confs cacheDir "9.9.9.9" (Some (errorString "probe failed"))
    ["c.example.com"; "a.example.com"] (world [] [])
  = main_hostnames GOOS GOARCH newRequest (peerRejectingA "9.9.9.9")
      confs cacheDir "9.9.9.9" None
      ["c.example.com"; "a.example.com"] (world [] []).
Proof.
  apply (main_hostnames_forget_err GOOS GOARCH newRequest
           (peerRejectingA "9.9.9.9") confs cacheDir "9.9.9.9"
           ["c.example.com"; "a.example.com"] "a.example.com" confA);
    [|reflexivity].
  apply elem_of_cons; right. apply elem_of_cons. by left.
Defined.

Lemma main_hostname_cache_unreadable_witness :
  main_hostname GOOS GOARCH newRequest (peer 200 "" "good 9.9.9.9")
    confs cacheDir "9.9.9.9" None "a.example.com"
    (world [(cacheA, os.Directory)] [])
  = (Return (Some (PathError "read" cacheA EISDIR)),
     logging (processing "a.example.com")
       (world [(cacheA, os.Directory)] [])).
Proof.
  apply (main_hostname_cache_unreadable GOOS GOARCH newRequest
           (peer 200 "" "good 9.9.9.9") confs cacheDir "9.9.9.9" None
           "a.example.com" confA (world [(cacheA, os.Directory)] []));
    [reflexivity|by vm_compute].
Defined.

Lemma UpdateIP_ignores_status_witness :
  UpdateIP GOOS GOARCH newRequest (peerStatus 200 "good 1.2.3.4")
    confA cacheDir "1.2.3.4" (world [] [])
  = UpdateIP GOOS GOARCH newRequest (peerStatus 500 "good 1.2.3.4")
      confA cacheDir "1.2.3.4" (world [] []).
Proof.
  apply (UpdateIP_ignores_status GOOS GOARCH newRequest
           (peerStatus 200 "good 1.2.3.4") (peerStatus 500 "good 1.2.3.4")).
  intros before req. split; reflexivity.
Defined.

Lemma checkResponse_trailing_byte_witness :
  let r := checkResponse GOOS GOARCH confA cacheDir
             ("good" +:+ " " +:+ "1.2.3.4" +:+ String LF "") "1.2.3.4"
             (world [(cacheA, os.RegularFile "5.6.7.8")] []) in
  ∃ returned,
    returned ≠ "1.2.3.4"
    ∧ r.1 = Return (Some (Errorf
              "returned ip differs from the requested one: %s and %s"
              [returned; "1.2.3.4"]))
    ∧ fs r.2 = fs (world [(cacheA, os.RegularFile "5.6.7.8")] []).
Proof.
  apply (checkResponse_trailing_byte GOOS GOARCH confA cacheDir
           "good" "1.2.3.4" LF "");
    [reflexivity|reflexivity|discriminate].
Defined.

Lemma LoadCachedIP_existing_file_witness :
  let w := world [(cacheA, os.RegularFile " 1.2.3.4 ")] [] in
  (LoadCachedIP confA cacheDir w).1 = Return (" 1.2.3.4 ", None)
  ∧ fs (LoadCachedIP confA cacheDir w).2 = fs w
  ∧ sent (LoadCachedIP confA cacheDir w).2 = sent w.
Proof.
  apply (LoadCachedIP_existing_file confA cacheDir
           (os.RegularFile " 1.2.3.4 ")
           (world [(cacheA, os.RegularFile " 1.2.3.4 ")] [])).
  by vm_compute.
Defined.

Lemma GetExternalIP_success_witness :
  GetExternalIP GOOS GOARCH newRequest
    (peer 200 (" 9.9.9.9" +:+ NBSP +:+ String LF "") "") (world [] [])
  = (Return ("9.9.9.9", None),
     sending (probeRequest GOOS GOARCH) (world [] [])).
Proof.
  apply (GetExternalIP_success GOOS GOARCH newRequest
           (peer 200 (" 9.9.9.9" +:+ NBSP +:+ String LF "") "")
           {| StatusCode := 200;
              Body := ReadAll_ok (" 9.9.9.9" +:+ NBSP +:+ String LF "") |}
           (" 9.9.9.9" +:+ NBSP +:+ String LF "") (world [] []));
    reflexivity.
Defined.

Lemma GetExternalIP_failure_witness :
  ∃ e, (GetExternalIP GOOS GOARCH newRequest (peer 404 "not found" "")
          (world [] [])).1
       = Return (fallbackIP, Some e).
Proof.
  apply (GetExternalIP_failure GOOS GOARCH newRequest
           (peer 404 "not found" "") (world [] [])
           {| StatusCode := 404; Body := ReadAll_ok "not found" |} None);
    [reflexivity|reflexivity|].
  intros _ Hstatus. discriminate Hstatus.
Defined.

Lemma GetExternalIP_no_response_witness :
  (GetExternalIP GOOS GOARCH newRequest peerUnreachable (world [] [])).1
  = Panicked nilDereference.
Proof.
  apply (GetExternalIP_no_response GOOS GOARCH newRequest peerUnreachable
           (world [] []) (Some (errorString "dial tcp: i/o timeout")));
    reflexivity.
Defined.

Lemma main_hostnames_returns_witness :
  ∃ err' w' lines,
    main_hostnames GOOS GOARCH newRequest (peerRejectingA "9.9.9.9")
      confs cacheDir "9.9.9.9" None
      ["a.example.com"; "c.example.com"; "b.example.com"] (world [] [])
    = (Return err', w')
    ∧ logged w' = logged (world [] []) ++ lines
    ∧ map processing ["a.example.com"; "c.example.com"; "b.example.com"]
        `sublist_of` lines.
Proof.
  apply (main_hostnames_returns GOOS GOARCH newRequest
           (peerRejectingA "9.9.9.9") confs cacheDir "9.9.9.9"
           ["a.example.com"; "c.example.com"; "b.example.com"]).
  intros before req. unfold peerRejectingA. by case_match.
Defined.

Lemma main_hostnames_second_run_witness :
  let hostnames := ["a.example.com"; "b.example.com"] in
  let w := world [(cacheA, os.RegularFile "1.2.3.4")] [] in
  let first := main_hostnames GOOS GOARCH newRequest
                 (peer 200 "" "good 9.9.9.9")
                 confs cacheDir "9.9.9.9" None hostnames w in
  let second := main_hostnames GOOS GOARCH newRequest
                  (peer 200 "" "good 9.9.9.9")
                  confs cacheDir "9.9.9.9" None hostnames first.2 in
  sent second.2 = sent first.2.
Proof.
  apply (main_hostnames_second_run GOOS GOARCH newRequest
           (peer 200 "" "good 9.9.9.9") confs cacheDir "9.9.9.9"
           ["a.example.com"; "b.example.com"] None None
           (world [(cacheA, os.RegularFile "1.2.3.4")] [])).
  - intros hostname conf w' Hin Hconf.
    repeat (apply elem_of_cons in Hin as [->|Hin]);
      [..|by apply elem_of_nil in Hin];
      vm_compute in Hconf; by simplify_eq.
  - intros hostname conf Hin Hconf.
    repeat (apply elem_of_cons in Hin as [->|Hin]);
      [..|by apply elem_of_nil in Hin];
      vm_compute in Hconf; simplify_eq; split; by vm_compute.
Defined.

Lemma main_no_executable_witness :
  main GOOS GOARCH ("", Some (errorString "readlink /proc/self/exe: no such file"))
       decode newRequest (peer 200 "" "") ["-h"] (world [] [])
  = (Panicked "readlink /proc/self/exe: no such file", world [] []).
Proof.
  apply (main_no_executable GOOS GOARCH
           ("", Some (errorString "readlink /proc/self/exe: no such file"))
           decode newRequest (peer 200 "" "") ""
           (errorString "readlink /proc/self/exe: no such file")).
  reflexivity.
Defined.

Lemma main_config_unreadable_witness :
  run (peer 200 "" "good 9.9.9.9") ["-c"; "/missing.json"] (world [] [])
  = (Exited 1,
     logging "failed to read configs file at: /missing.json" (world [] [])).
Proof.
  apply (main_config_unreadable GOOS GOARCH executable decode newRequest
           (peer 200 "" "good 9.9.9.9") "/usr/local/bin/google-ddns-updater"
           ["-c"; "/missing.json"]
           {| needIP := false; needConf := false; ipAddr := "";
              hostnames := []; confFilepath := "/missing.json" |}
           {| IPAddress := ""; Configs_ := [] |}
           (PathError "open" "/missing.json" ENOENT));
    by vm_compute.
Defined.

Lemma main_known_ip_witness :
  ∃ reqs,
    sent (run (peer 200 "" "good 9.9.9.9")
              ["-c"; confFile; "-i"; "9.9.9.9";
               "b.example.com"; "c.example.com"; "a.example.com";
               "b.example.com"]
              (world [(cacheA, os.RegularFile "9.9.9.9")] [])).2
    = sent (world [(cacheA, os.RegularFile "9.9.9.9")] []) ++ reqs
    ∧ reqs `sublist_of`
        [updateRequest GOOS GOARCH confB "9.9.9.9";
         updateRequest GOOS GOARCH confA "9.9.9.9";
         updateRequest GOOS GOARCH confB "9.9.9.9"].
Proof.
  apply (main_known_ip GOOS GOARCH executable decode newRequest
           (peer 200 "" "good 9.9.9.9") "/usr/local/bin/google-ddns-updater"
           ["-c"; confFile; "-i"; "9.9.9.9";
            "b.example.com"; "c.example.com"; "a.example.com";
            "b.example.com"]
           {| needIP := false; needConf := false; ipAddr := "9.9.9.9";
              hostnames := ["b.example.com"; "c.example.com";
                            "a.example.com"; "b.example.com"];
              confFilepath := confFile |}
           confs (world [(cacheA, os.RegularFile "9.9.9.9")] []));
    by vm_compute.
Defined.

Lemma main_blank_probe_witness :
  run (peer 200 (String LF "") "good 9.9.9.9") ["-c"; confFile] (world [] [])
  = (Return tt,
     logging "update finished"
       (logging "fetched external ip: "
          (sending (probeRequest GOOS GOARCH)
             (logging ("loaded configs file at: " +:+ confFile)
                (world [] []))))).
Proof.
  apply (main_blank_probe GOOS GOARCH executable decode newRequest
           (peer 200 (String LF "") "good 9.9.9.9")
           "/usr/local/bin/google-ddns-updater"
           ["-c"; confFile]
           {| needIP := false; needConf := false; ipAddr := "";
              hostnames := []; confFilepath := confFile |}
           confs
           {| StatusCode := 200; Body := ReadAll_ok (String LF "") |}
           (String LF "") (world [] []));
    by vm_compute.
Defined.

Lemma main_unknown_hostnames_witness :
  let r := run (peer 200 "" "good 9.9.9.9")
               ["-c"; confFile; "-i"; "9.9.9.9"; "typo.example.com"]
               (world [] []) in
  r.1 = Return tt
  ∧ sent r.2 = sent (world [] [])
  ∧ fs r.2 = fs (world [] [])
  ∧ last (logged r.2) = Some "update finished".
Proof.
  apply (main_unknown_hostnames GOOS GOARCH executable decode newRequest
           (peer 200 "" "good 9.9.9.9") "/usr/local/bin/google-ddns-updater"
           ["-c"; confFile; "-i"; "9.9.9.9"; "typo.example.com"]
           {| needIP := false; needConf := false; ipAddr := "9.9.9.9";
              hostnames := ["typo.example.com"]; confFilepath := confFile |}
           confs (world [] [])); try by vm_compute.
  intros hostname Hin. apply elem_of_cons in Hin as [->|Hin];
    [|by apply elem_of_nil in Hin].
  reflexivity.
Defined.

Lemma main_default_hostnames_witness :
  run (peer 200 "" "good 9.9.9.9") ["-c"; confFile; "-i"; "9.9.9.9"]
      (world [] [])
  = run (peer 200 "" "good 9.9.9.9")
        (["-c"; confFile; "-i"; "9.9.9.9"]
         ++ ["a.example.com"; "b.example.com"])
        (world [] []).
Proof.
  apply (main_default_hostnames GOOS GOARCH executable decode newRequest
           (peer 200 "" "good 9.9.9.9") "/usr/local/bin/google-ddns-updater"
           ["-c"; confFile; "-i"; "9.9.9.9"]
           {| needIP := false; needConf := false; ipAddr := "9.9.9.9";
              hostnames := []; confFilepath := confFile |}
           confs (world [] [])); try by vm_compute.
  repeat constructor.
Defined.

Lemma main_hostname_retries_witness :
  let w := world [(cacheA, os.RegularFile "1.2.3.4")] [] in
  let req := updateRequest GOOS GOARCH confA "9.9.9.9" in
  let first := main_hostname GOOS GOARCH newRequest
                 (peerRejectingA "9.9.9.9")
                 confs cacheDir "9.9.9.9" None "a.example.com" w in
  let second := main_hostname GOOS GOARCH newRequest
                  (peerRejectingA "9.9.9.9")
                  confs cacheDir "9.9.9.9" None "a.example.com" first.2 in
  sent first.2 = sent w ++ [req]
  ∧ (∀ other, cached (fs first.2) other = cached (fs w) other)
  ∧ sent second.2 = sent first.2 ++ [req].
Proof.
  apply (main_hostname_retries GOOS GOARCH newRequest
           (peerRejectingA "9.9.9.9") confs cacheDir "9.9.9.9" None None
           "a.example.com" confA "1.2.3.4"
           (world [(cacheA, os.RegularFile "1.2.3.4")] []));
    try by vm_compute.
Defined.

Lemma checkResponse_good_mismatch_log_witness :
  let r := checkResponse GOOS GOARCH confA cacheDir
             "good 5.6.7.8" "1.2.3.4" (world [] []) in
  logged r.2 = logged (world [] []) ++ ["update was successful"]
  ∧ r.1 = Return (Some (Errorf
            "returned ip differs from the requested one: %s and %s"
            ["5.6.7.8"; "1.2.3.4"])).
Proof.
  apply (checkResponse_good_mismatch_log GOOS GOARCH confA cacheDir
           "5.6.7.8" "1.2.3.4" (world [] [])); [reflexivity|discriminate].
Defined.

Lemma main_probed_ip_witness :
  ∃ reqs,
    sent (run (peer 200 ("9.9.9.9" +:+ NBSP +:+ String LF "") "good 9.9.9.9")
              ["-c"; confFile] (world [] [])).2
    = sent (world [] []) ++ probeRequest GOOS GOARCH :: reqs
    ∧ reqs `sublist_of`
        [updateRequest GOOS GOARCH confA "9.9.9.9";
         updateRequest GOOS GOARCH confB "9.9.9.9"].
Proof.
  apply (main_probed_ip GOOS GOARCH executable decode newRequest
           (peer 200 ("9.9.9.9" +:+ NBSP +:+ String LF "") "good 9.9.9.9")
           "/usr/local/bin/google-ddns-updater"
           ["-c"; confFile]
           {| needIP := false; needConf := false; ipAddr := "";
              hostnames := []; confFilepath := confFile |}
           confs
           {| StatusCode := 200;
              Body := ReadAll_ok ("9.9.9.9" +:+ NBSP +:+ String LF "") |}
           ("9.9.9.9" +:+ NBSP +:+ String LF "") (world [] []));
    by vm_compute.
Defined.

End MoreScenarios.
